(** * OAuth login and token issuance of the auth-express backend

    A shallow embedding of the authentication controller
    (controller/auth: [oauthCallback], [oAuthMobile], [loginWithToken]),
    of its OAuth helper service (controller/auth/service.ts) and of the
    user schema (model/user.ts), followed by the properties of the
    natural-language specification that concern them.

    Conventions.
    - A JavaScript string is the Rocq string of its UTF-8 bytes.  Its
      length is counted in UTF-16 code units and trimming strips the white
      space of ECMAScript, as the code's do.  [toLowerCase] maps the letters
      A to Z only: it is [String.prototype.toLowerCase] on strings of 7-bit
      characters ([isAscii]), and a property that rests on the case mapping
      of an address assumes such an address.  An optional value
      ([undefined], a missing field) is [None]; truthiness of an optional
      string is [truthy].
    - The user collection is a list of documents in insertion order: the
      schema declares no unique index on [googleId], so duplicates matter.
    - Everything outside the repository (the provider's HTTP endpoints, the
      signature check of google-auth-library, the validator package, the
      clock) is a field of the [World] record or an argument.
    - A handler is a computation in a small state-and-exception monad over
      the collection, closed by the [try]/[catch] of the source. *)

From Stdlib Require Import String Ascii List ZArith Bool Arith Lia.
Import ListNotations.
Open Scope string_scope.

(** ** JavaScript strings *)

Module Js.

Definition lowerChar (c : ascii) : ascii :=
  let n := nat_of_ascii c in
  if ((65 <=? n) && (n <=? 90))%nat then ascii_of_nat (n + 32) else c.

(** A string of 7-bit characters. *)
Fixpoint isAscii (s : string) : bool :=
  match s with
  | EmptyString => true
  | String c r => (nat_of_ascii c <? 128)%nat && isAscii r
  end.

(** [String.prototype.toLowerCase] on the strings of [isAscii].  The case
    mapping of the other characters is not modelled: their bytes are left
    as they are, where the code maps them by the Unicode tables. *)
Fixpoint toLowerCase (s : string) : string :=
  match s with
  | EmptyString => EmptyString
  | String c r => String (lowerChar c) (toLowerCase r)
  end.

(** The UTF-16 code units a byte of UTF-8 accounts for: none for a
    continuation byte, two (a surrogate pair) for the lead byte of a
    four-byte sequence, one otherwise. *)
Definition units (c : ascii) : nat :=
  let n := nat_of_ascii c in
  if ((128 <=? n) && (n <? 192))%nat then 0
  else if (240 <=? n)%nat then 2 else 1.

(** [String.prototype.length]. *)
Fixpoint length (s : string) : nat :=
  match s with
  | EmptyString => 0
  | String c r => units c + length r
  end.

(** The white space [trim] strips ([WhiteSpace] and [LineTerminator] of
    ECMAScript), in UTF-8.  In one byte: TAB, LF, VT, FF, CR and SP. *)
Definition isSpace (c : ascii) : bool :=
  let n := nat_of_ascii c in
  (((9 <=? n) && (n <=? 13)) || (n =? 32))%nat.

(** In two bytes: U+00A0. *)
Definition isSpace2 (a b : ascii) : bool :=
  ((nat_of_ascii a =? 194) && (nat_of_ascii b =? 160))%nat.

(** In three bytes: U+1680, U+2000 to U+200A, U+2028, U+2029, U+202F,
    U+205F, U+3000 and U+FEFF. *)
Definition isSpace3 (a b c : ascii) : bool :=
  let x := nat_of_ascii a in
  let y := nat_of_ascii b in
  let z := nat_of_ascii c in
  (((x =? 225) && (y =? 154) && (z =? 128))
   || ((x =? 226) && (y =? 128)
       && (((128 <=? z) && (z <=? 138)) || (z =? 168) || (z =? 169)
           || (z =? 175)))
   || ((x =? 226) && (y =? 129) && (z =? 159))
   || ((x =? 227) && (y =? 128) && (z =? 128))
   || ((x =? 239) && (y =? 187) && (z =? 191)))%nat.


(** [String.prototype.trimStart]: leading white space is skipped character
    by character. *)
Fixpoint trimStart (s : string) : string :=
  match s with
  | EmptyString => EmptyString
  | String a r =>
      if isSpace a then trimStart r
      else
        match r with
        | String b r2 =>
            if isSpace2 a b then trimStart r2
            else
              match r2 with
              | String c r3 => if isSpace3 a b c then trimStart r3 else s
              | EmptyString => s
              end
        | EmptyString => s
        end
  end.

(** [String.prototype.trimEnd]: the string is cut where what remains is
    white space only. *)
Fixpoint trimEnd (s : string) : string :=
  match s with
  | EmptyString => EmptyString
  | String a r =>
      if trimStart s =? "" then EmptyString else String a (trimEnd r)
  end.

(** [String.prototype.trim]. *)
Definition trim (s : string) : string := trimEnd (trimStart s).

(** [String.prototype.includes]. *)
Fixpoint includes (hay needle : string) : bool :=
  String.prefix needle hay ||
  match hay with
  | EmptyString => false
  | String _ r => includes r needle
  end.

(** [String.prototype.split] on a one-character separator: [splitAcc]
    carries the segment under construction. *)
Fixpoint splitAcc (sep : ascii) (acc : string) (s : string) : list string :=
  match s with
  | EmptyString => [acc]
  | String c r =>
      if Ascii.eqb c sep then acc :: splitAcc sep EmptyString r
      else splitAcc sep (acc ++ String c EmptyString) r
  end.

Definition split (s : string) (sep : ascii) : list string :=
  splitAcc sep EmptyString s.

(** Truthiness of a value that is a string or [undefined]. *)
Definition truthy (o : option string) : bool :=
  match o with
  | Some s => negb (s =? "")
  | None => false
  end.

(** [a || b] on such values. *)
Definition or_else (a b : option string) : option string :=
  if truthy a then a else b.

(** [Array.prototype.includes] / [indexOf (x) > -1] on strings. *)
Definition mem (x : string) (l : list string) : bool :=
  existsb (String.eqb x) l.

(** [Array.prototype.filter (Boolean)]. *)
Fixpoint filterBoolean (l : list (option string)) : list string :=
  match l with
  | [] => []
  | Some s :: r => if s =? "" then filterBoolean r else s :: filterBoolean r
  | None :: r => filterBoolean r
  end.

End Js.

(** ** Errors and responses *)

(** A thrown JavaScript error: the handlers look at [name] and [message]. *)
Record Exn := mkExn { exn_name : string; exn_message : string }.

Definition Error (msg : string) : Exn := mkExn "Error" msg.
Definition TypeError (msg : string) : Exn := mkExn "TypeError" msg.

(** ** The user schema (model/user.ts) *)

(** The document fields the authentication core reads or writes.  The
    remaining schema paths (phone, dateOfBirth, gender, the verification and
    reset tokens, lockUntil, customerPreferences, the timestamps) are
    touched by none of the modelled handlers and are left out. *)
Record User := mkUser {
  _id : nat;
  name : option string;
  email : option string;
  password : option string;
  role : string;
  firstName : option string;
  lastName : option string;
  avatar : option string;
  isEmailVerified : bool;
  googleId : option string;
  isGoogleUser : bool;
  provider : option string;
  isActive : bool;
  lastLogin : option Z;
  loginAttempts : nat
}.

(** The plain object handed to [User.create]. *)
Record UserData := mkUserData {
  d_googleId : option string;
  d_name : option string;
  d_firstName : option string;
  d_lastName : option string;
  d_avatar : option string;
  d_email : option string;
  d_password : option string;
  d_isGoogleUser : option bool;
  d_isEmailVerified : option bool;
  d_role : option string;
  d_lastLogin : option Z;
  d_provider : option string
}.

(** The collection. *)
Definition Store := list User.

(** ** Session tokens (plugin/token, plugin/config) *)

(** The claim set the handlers sign: [{ name, idUser, role }]. *)
Record Payload := mkPayload {
  p_name : option string;
  p_idUser : nat;
  p_role : string
}.

(** A signature is kept symbolic: the secret and the content it was
    computed over.  Checking a token recomputes it and compares. *)
Record Mac := mkMac {
  mac_key : string;
  mac_payload : Payload;
  mac_iat : Z;
  mac_exp : Z
}.

Record Jwt := mkJwt {
  jwt_payload : Payload;
  jwt_iat : Z;
  jwt_exp : Z;
  jwt_sig : Mac
}.

Record Tokens := mkTokens {
  accessToken : Jwt;
  refreshToken : Jwt
}.

(** ** HTTP responses *)

Record UserSummary := mkSummary {
  us_id : nat;
  us_name : option string;
  us_email : option string;
  us_avatar : option string;
  us_role : string;
  us_provider : option (option string)   (* [None]: the key is not sent *)
}.

Inductive Body :=
| JsonErrorOnly (error : string)
| JsonError (error message : string)
| JsonAudience (error message : string)
               (tokenAudience expectedAudience : option string)
| JsonValidation (error message details : string)
| JsonLogin (user : UserSummary) (tokens : Tokens)
| JsonTokens (tokens : Tokens).

Record Response := mkResponse { status : nat; body : Body }.

(** What a handler leaves behind: a response, or a rejected promise that
    nothing in the handler caught (no response is sent by it). *)
Inductive Outcome :=
| Sent (r : Response)
| Unhandled (e : Exn).

(** ** The handler monad *)

(** How a block of statements ends: it falls through with a value, it
    executes [return res.status(..).json(..)], or it throws. *)
Inductive Completion (A : Type) :=
| Normal (a : A)
| Return (r : Response)
| Throw (e : Exn).
Arguments Normal {A} a.
Arguments Return {A} r.
Arguments Throw {A} e.

(** Statements run against the collection; a write that happened before a
    [throw] stays. *)
Definition M (A : Type) := Store -> Completion A * Store.

Definition ret {A} (a : A) : M A := fun s => (Normal a, s).
Definition respond {A} (code : nat) (b : Body) : M A :=
  fun s => (Return (mkResponse code b), s).
Definition throw {A} (e : Exn) : M A := fun s => (Throw e, s).

Definition bind {A B} (m : M A) (k : A -> M B) : M B :=
  fun s =>
    match m s with
    | (Normal a, s') => k a s'
    | (Return r, s') => (Return r, s')
    | (Throw e, s') => (Throw e, s')
    end.

Declare Scope handler_scope.
Delimit Scope handler_scope with handler.
Notation "x <- m ;; k" := (bind m (fun x => k))
  (at level 61, m at next level, right associativity) : handler_scope.
Notation "m ;; k" := (bind m (fun _ => k))
  (at level 61, right associativity) : handler_scope.

(** [if (c) return res.status(code).json(b);] *)
Definition return_if (c : bool) (code : nat) (b : Body) : M unit :=
  if c then respond code b else ret tt.

(** [try { body } catch (error) { return handler(error) }] around a body
    all of whose paths return a response. *)
Definition try_catch (body : M Response) (handler : Exn -> Response)
  : Store -> Response * Store :=
  fun s =>
    match body s with
    | (Normal r, s') => (r, s')
    | (Return r, s') => (r, s')
    | (Throw e, s') => (handler e, s')
    end.

(** ** The world outside the repository *)

(** The form posted to the provider's token endpoint. *)
Record TokenParams := mkTokenParams {
  client_id : option string;
  client_secret : option string;
  code : string;
  grant_type : string;
  redirect_uri : string
}.

(** An axios call: a non-2xx answer or a network failure makes axios throw;
    otherwise [response.data] is handed back ([None]: an empty, falsy
    body). *)
Inductive Http (A : Type) :=
| HttpFailed (e : Exn)
| HttpData (data : option A).
Arguments HttpFailed {A} e.
Arguments HttpData {A} data.

(** The token endpoint's JSON answer, as far as the handler reads it. *)
Record TokenData := mkTokenData { access_token : option string }.

(** A profile: the user-info answer of the browser flow, and the
    [userProfile] object the mobile flow builds from the verified claims.
    The provider always sends [id]; the other properties may be absent. *)
Record Profile := mkProfile {
  pf_id : string;
  pf_name : option string;
  pf_given_name : option string;
  pf_family_name : option string;
  pf_picture : option string;
  pf_email : option string
}.

(** The claims of an identity token. *)
Record IdClaims := mkIdClaims {
  aud : option string;
  sub : option string;
  c_email : option string;
  c_name : option string;
  c_given_name : option string;
  c_family_name : option string;
  c_picture : option string
}.

(** [JSON.parse(Buffer.from(segment, "base64").toString())]: it throws, or
    yields [null], or yields a value whose properties can be read. *)
Inductive Decoded :=
| DecodeThrows (e : Exn)
| DecodedNull
| DecodedObject (claims : IdClaims).

Record World := mkWorld {
  (* process.env *)
  GOOGLE_CLIENT_ID : option string;
  GOOGLE_CLIENT_SECRET : option string;
  FRONTEND_URL : option string;
  (* the provider *)
  post_token : TokenParams -> Http TokenData;
  get_userinfo : option string -> Http Profile;
  (* identity tokens: decoding of the claims segment, and the certificate,
     issuer and time checks of google-auth-library ([None]: all passed) *)
  decode_claims : string -> Decoded;
  check_signature : string -> option Exn;
  (* the validator package *)
  isEmail : string -> bool;
  isURL : string -> bool;
  (* plugin/token, at a given time *)
  Token_sign : Z -> Payload -> Exn + Tokens;
  Token_refresh : Z -> Jwt -> Exn + Tokens
}.

(** ** Mongoose over the user schema *)

(** The message names the paths that failed; Mongoose follows each name
    with the text of the validator that refused it. *)
Definition ValidationError (paths : list string) : Exn :=
  mkExn "ValidationError"
        ("users validation failed: " ++ String.concat ", " paths).

Definition DuplicateKeyError : Exn :=
  mkExn "MongoServerError" "E11000 duplicate key error collection: users index: email_1".

Definition DocumentNotFoundError : Exn :=
  mkExn "DocumentNotFoundError" "No document found for query".

(** Schema setters: [trim: true], and [lowercase: true] on [email]. *)
Definition setTrim (v : option string) : option string :=
  option_map Js.trim v.
Definition setEmail (v : option string) : option string :=
  option_map (fun e => Js.trim (Js.toLowerCase e)) v.

Definition with_default {A} (d : A) (v : option A) : A :=
  match v with Some a => a | None => d end.

(** [new User(data)]: setters and schema defaults. *)
Definition newDocument (id : nat) (d : UserData) : User :=
  {| _id := id;
     name := setTrim (d_name d);
     email := setEmail (d_email d);
     password := d_password d;
     role := with_default "customer" (d_role d);
     firstName := setTrim (d_firstName d);
     lastName := setTrim (d_lastName d);
     avatar := d_avatar d;
     isEmailVerified := with_default false (d_isEmailVerified d);
     googleId := d_googleId d;
     isGoogleUser := with_default false (d_isGoogleUser d);
     provider := d_provider d;
     isActive := true;
     lastLogin := d_lastLogin d;
     loginAttempts := 0 |}.

(** Assignments to document paths; the string paths go through [trim]. *)
Definition set_name (v : option string) (u : User) : User :=
  mkUser (_id u) (setTrim v) (email u) (password u) (role u) (firstName u)
         (lastName u) (avatar u) (isEmailVerified u) (googleId u)
         (isGoogleUser u) (provider u) (isActive u) (lastLogin u)
         (loginAttempts u).
Definition set_firstName (v : option string) (u : User) : User :=
  mkUser (_id u) (name u) (email u) (password u) (role u) (setTrim v)
         (lastName u) (avatar u) (isEmailVerified u) (googleId u)
         (isGoogleUser u) (provider u) (isActive u) (lastLogin u)
         (loginAttempts u).
Definition set_lastName (v : option string) (u : User) : User :=
  mkUser (_id u) (name u) (email u) (password u) (role u) (firstName u)
         (setTrim v) (avatar u) (isEmailVerified u) (googleId u)
         (isGoogleUser u) (provider u) (isActive u) (lastLogin u)
         (loginAttempts u).
Definition set_avatar (v : option string) (u : User) : User :=
  mkUser (_id u) (name u) (email u) (password u) (role u) (firstName u)
         (lastName u) v (isEmailVerified u) (googleId u)
         (isGoogleUser u) (provider u) (isActive u) (lastLogin u)
         (loginAttempts u).
Definition set_lastLogin (v : option Z) (u : User) : User :=
  mkUser (_id u) (name u) (email u) (password u) (role u) (firstName u)
         (lastName u) (avatar u) (isEmailVerified u) (googleId u)
         (isGoogleUser u) (provider u) (isActive u) v
         (loginAttempts u).
Definition set_provider (v : option string) (u : User) : User :=
  mkUser (_id u) (name u) (email u) (password u) (role u) (firstName u)
         (lastName u) (avatar u) (isEmailVerified u) (googleId u)
         (isGoogleUser u) v (isActive u) (lastLogin u)
         (loginAttempts u).
Definition set_isEmailVerified (v : bool) (u : User) : User :=
  mkUser (_id u) (name u) (email u) (password u) (role u) (firstName u)
         (lastName u) (avatar u) v (googleId u)
         (isGoogleUser u) (provider u) (isActive u) (lastLogin u)
         (loginAttempts u).

(** Validators.  Apart from [required], a validator is not run on a
    missing value.  The length validators compare [value.length]. *)
Definition required (v : option string) : bool := Js.truthy v.
Definition maxlength (n : nat) (v : option string) : bool :=
  match v with Some s => (Js.length s <=? n)%nat | None => true end.
Definition minlength (n : nat) (v : option string) : bool :=
  match v with Some s => (n <=? Js.length s)%nat | None => true end.
Definition enum (allowed : list string) (v : option string) : bool :=
  match v with Some s => Js.mem s allowed | None => true end.
Definition validate_with (f : string -> bool) (v : option string) : bool :=
  match v with Some s => f s | None => true end.

Definition check (path : string) (ok : bool) : list string :=
  if ok then [] else [path].

(** The paths that fail validation.  [selected] tells whether [password]
    is part of the document: it is on a new document and, the path being
    [select: false], it is not on one loaded by [findOne]. *)
Definition invalidPaths (w : World) (selected : bool) (u : User)
  : list string :=
  (check "name" (required (name u) && maxlength 100 (name u))
  ++ check "email" (required (email u) && validate_with (isEmail w) (email u))
  ++ check "password"
       (negb selected
        || ((isGoogleUser u || required (password u))
            && minlength 6 (password u)))
  ++ check "role" (negb (role u =? "")
                   && Js.mem (role u) ["user"; "admin"; "customer"])
  ++ check "firstName" (maxlength 50 (firstName u))
  ++ check "lastName" (maxlength 50 (lastName u))
  ++ check "avatar"
       (validate_with (fun v => (v =? "") || isURL w v) (avatar u))
  ++ check "provider"
       ((negb (isGoogleUser u) || required (provider u))
        && enum ["google"; "facebook"; "apple"] (provider u)))%list.

(** [userSchema.pre("save")]; it runs after validation. *)
Definition preSave (u : User) : User :=
  let u1 :=
    if isGoogleUser u && negb (isEmailVerified u)
    then set_isEmailVerified true u else u in
  match firstName u1, lastName u1 with
  | Some f, Some l =>
      if Js.truthy (Some f) && Js.truthy (Some l) && negb (Js.truthy (name u1))
      then set_name (Some (f ++ " " ++ l)) u1 else u1
  | _, _ => u1
  end.

(** *** The collection *)

Definition option_string_eqb (a b : option string) : bool :=
  match a, b with
  | Some x, Some y => x =? y
  | None, None => true
  | _, _ => false
  end.

Definition hasGoogleId (g : string) (u : User) : bool :=
  option_string_eqb (googleId u) (Some g).

Definition hasEmail (e : option string) (u : User) : bool :=
  option_string_eqb (email u) e.

(** [findOne({ googleId })]: the first match in natural order.  The
    document is written here with the stored [password]: the path is
    [select: false], so the handler's copy lacks it, validation on [save]
    passes it over ([invalidPaths] with [selected = false]) and [save],
    which writes the assigned paths only, leaves the stored value in
    place.  No handler reads [password] of a document found this way. *)
Definition findOne_googleId (g : string) (s : Store) : option User :=
  find (hasGoogleId g) s.

(** Driver-generated identifiers are fresh. *)
Definition nextId (s : Store) : nat :=
  S (fold_right (fun u m => Nat.max (_id u) m) 0 s).

(** An insert is checked against the one unique index of the schema,
    [email] ([unique: true]); [googleId] is declared [sparse] and
    [index] only. *)
Definition insertOne (u : User) (s : Store) : Exn + Store :=
  if existsb (hasEmail (email u)) s then inl DuplicateKeyError
  else inr (s ++ [u])%list.

(** Writing a loaded document back, by [_id].  The handlers never assign
    [email], so no index is involved. *)
Fixpoint replaceById (u : User) (s : Store) : option Store :=
  match s with
  | [] => None
  | v :: r =>
      if (_id v =? _id u)%nat then Some (u :: r)
      else option_map (cons v) (replaceById u r)
  end.

(** [User.create(data)]. *)
Definition User_create (w : World) (d : UserData) : M User :=
  fun s =>
    let doc := newDocument (nextId s) d in
    match invalidPaths w true doc with
    | [] =>
        let doc' := preSave doc in
        match insertOne doc' s with
        | inr s' => (Normal doc', s')
        | inl e => (Throw e, s)
        end
    | paths => (Throw (ValidationError paths), s)
    end.

(** [user.save()] on a document obtained from [findOne]. *)
Definition User_save (w : World) (u : User) : M User :=
  fun s =>
    match invalidPaths w false u with
    | [] =>
        let u' := preSave u in
        match replaceById u' s with
        | Some s' => (Normal u', s')
        | None => (Throw DocumentNotFoundError, s)
        end
    | paths => (Throw (ValidationError paths), s)
    end.

(** ** controller/auth/service.ts *)

(** A template literal renders a missing value as [undefined]. *)
Definition interpolate (v : option string) : string :=
  match v with Some s => s | None => "undefined" end.

Definition tokenParams (w : World) (code : string) : TokenParams :=
  {| client_id := GOOGLE_CLIENT_ID w;
     client_secret := GOOGLE_CLIENT_SECRET w;
     code := code;
     grant_type := "authorization_code";
     redirect_uri := interpolate (FRONTEND_URL w) ++ "/auth/callback" |}.

Definition exchangeCodeForToken (w : World) (code : string)
  : option TokenData :=
  match post_token w (tokenParams w code) with
  | HttpData data => data
  | HttpFailed _ => None
  end.

Definition getUserProfile (w : World) (accessToken : option string)
  : option Profile :=
  match get_userinfo w accessToken with
  | HttpData data => data
  | HttpFailed _ => None
  end.

(** ** google-auth-library *)

Record LoginTicket := mkTicket { getPayload : option IdClaims }.

Definition claimsSegment (idToken : string) : option string :=
  match Js.split idToken "." with
  | [_; seg; _] => Some seg
  | _ => None
  end.

(** [OAuth2Client.verifyIdToken({ idToken, audience })] with a list of
    audiences.  The library parses the token, checks signature, issuer and
    times ([check_signature]), and last requires the [aud] claim to be an
    element of [audience]. *)
Definition verifyIdToken (w : World) (idToken : string)
           (audience : list string) : Exn + LoginTicket :=
  match claimsSegment idToken with
  | None => inl (Error "Wrong number of segments in token")
  | Some seg =>
      match decode_claims w seg with
      | DecodeThrows _ => inl (Error "Can't parse token payload")
      | DecodedNull => inl (TypeError "Cannot read properties of null")
      | DecodedObject claims =>
          match check_signature w idToken with
          | Some e => inl e
          | None =>
              let audVerified :=
                match aud claims with
                | Some a => Js.mem a audience
                | None => false
                end in
              if audVerified then inr (mkTicket (Some claims))
              else inl (Error
                     "Wrong recipient, payload audience != requiredAudience")
          end
      end
  end.

(** ** controller/auth *)

Definition payload_of (user : User) : Payload :=
  {| p_name := name user; p_idUser := _id user; p_role := role user |}.

(** [Token.sign({ payload })] followed by the 200 response. *)
Definition issue (w : World) (now : Z) (user : User)
           (summary : User -> UserSummary) : M Response :=
  match Token_sign w now (payload_of user) with
  | inr tokens => respond 200 (JsonLogin (summary user) tokens)
  | inl e => throw e
  end.

Definition findOne (g : string) : M (option User) :=
  fun s => (Normal (findOne_googleId g s), s).

Local Open Scope handler_scope.

(** *** The browser flow: [oauthCallback] *)

Definition callbackSummary (user : User) : UserSummary :=
  {| us_id := _id user; us_name := name user; us_email := email user;
     us_avatar := avatar user; us_role := role user; us_provider := None |}.

Definition callbackNewUserData (profile : Profile) (now : Z) : UserData :=
  {| d_googleId := Some (pf_id profile);
     d_name := pf_name profile;
     d_firstName := pf_given_name profile;
     d_lastName := pf_family_name profile;
     d_avatar := pf_picture profile;
     d_email := pf_email profile;
     d_password := None;
     d_isGoogleUser := Some true;
     d_isEmailVerified := Some true;
     d_role := Some "customer";
     d_lastLogin := Some now;
     d_provider := None |}.

Definition callbackUpdate (profile : Profile) (now : Z) (user : User)
  : User :=
  let user := set_name (pf_name profile) user in
  let user := set_firstName (pf_given_name profile) user in
  let user := set_lastName (pf_family_name profile) user in
  let user := set_avatar (pf_picture profile) user in
  set_lastLogin (Some now) user.

(** Code exchange and profile fetch, up to the trusted profile. *)
Definition oauthCallback_verify (w : World) (code : option string)
  : M Profile :=
  match code with
  | Some c =>
      return_if (negb (Js.truthy code)) 400
        (JsonError "Missing authorization code"
           "Authorization code is required") ;;
      match exchangeCodeForToken w c with
      | None =>
          respond 400 (JsonError "Token exchange failed"
            "Failed to exchange authorization code for access token")
      | Some tokenData =>
          match getUserProfile w (access_token tokenData) with
          | None =>
              respond 400 (JsonError "Profile fetch failed"
                "Failed to fetch user profile from Google")
          | Some profile => ret profile
          end
      end
  | None =>
      respond 400 (JsonError "Missing authorization code"
                     "Authorization code is required")
  end.

(** Find-or-create, from the answer of [findOne] on. *)
Definition reconcileCallback_found (w : World) (now : Z) (profile : Profile)
           (found : option User) : M User :=
  match found with
  | Some user => User_save w (callbackUpdate profile now user)
  | None => User_create w (callbackNewUserData profile now)
  end.

Definition reconcileCallback (w : World) (now : Z) (profile : Profile)
  : M User :=
  found <- findOne (pf_id profile) ;;
  reconcileCallback_found w now profile found.

Definition oauthCallback_catch (error : Exn) : Response :=
  mkResponse 500 (JsonError "Internal server error"
                    "An error occurred during OAuth authentication").

Definition oauthCallback (w : World) (now : Z) (code : option string)
  : Store -> Response * Store :=
  try_catch
    (profile <- oauthCallback_verify w code ;;
     user <- reconcileCallback w now profile ;;
     issue w now user callbackSummary)
    oauthCallback_catch.

(** *** The mobile flow: [oAuthMobile] *)

Definition supportedProviders : list string := ["google"].

Definition mobileSummary (user : User) : UserSummary :=
  {| us_id := _id user; us_name := name user; us_email := email user;
     us_avatar := avatar user; us_role := role user;
     us_provider := Some (provider user) |}.

Definition mobileNewUserData (userProfile : Profile) (reqProvider : string)
           (now : Z) : UserData :=
  {| d_googleId := Some (pf_id userProfile);
     d_name := pf_name userProfile;
     d_firstName := pf_given_name userProfile;
     d_lastName := pf_family_name userProfile;
     d_avatar := pf_picture userProfile;
     d_email := pf_email userProfile;
     d_password := None;
     d_isGoogleUser := Some true;
     d_isEmailVerified := Some true;
     d_role := Some "customer";
     d_lastLogin := Some now;
     d_provider := Some (Js.toLowerCase reqProvider) |}.

(** [if (!user.provider) user.provider = provider.toLowerCase()] *)
Definition backfillProvider (reqProvider : string) (user : User) : User :=
  if Js.truthy (provider user) then user
  else set_provider (Some (Js.toLowerCase reqProvider)) user.

Definition mobileUpdate (userProfile : Profile) (reqProvider : string)
           (now : Z) (user : User) : User :=
  let user := set_name (pf_name userProfile) user in
  let user := set_firstName (pf_given_name userProfile) user in
  let user := set_lastName (pf_family_name userProfile) user in
  let user := set_avatar (pf_picture userProfile) user in
  let user := set_lastLogin (Some now) user in
  backfillProvider reqProvider user.

(** The unverified look at the claims segment (the first inner [try]):
    the claims, or [None] when the segment parses to [null]. *)
Definition decodeTokenPayload (w : World) (tokenId : string)
  : M (option IdClaims) :=
  let parts := Js.split tokenId "." in
  if negb (length parts =? 3)%nat then
    respond 401 (JsonError "Token decode failed" "Invalid token format")
  else
    match decode_claims w (nth 1 parts "") with
    | DecodeThrows _ =>
        respond 401 (JsonError "Token decode failed" "Invalid token format")
    | DecodedNull => ret None
    | DecodedObject claims => ret (Some claims)
    end.

Definition allowedAudiences (w : World) (tokenPayload : IdClaims)
  : list string :=
  Js.filterBoolean [GOOGLE_CLIENT_ID w; aud tokenPayload].

(** The verification stage (the second inner [try]). *)
Definition verifyTicket (w : World) (tokenId : string)
           (tokenPayload : IdClaims) : M LoginTicket :=
  match verifyIdToken w tokenId (allowedAudiences w tokenPayload) with
  | inr ticket => ret ticket
  | inl verificationError =>
      if Js.includes (exn_message verificationError) "audience" then
        respond 401
          (JsonAudience "Audience mismatch"
             "The token was issued for a different client ID. Please check your Google OAuth configuration."
             (aud tokenPayload) (GOOGLE_CLIENT_ID w))
      else
        respond 401 (JsonError "Token verification failed"
                       "Invalid or expired Google ID token")
  end.

(** The [userProfile] object built from the verified claims. *)
Definition userProfileOf (id : string) (profile : IdClaims) : Profile :=
  {| pf_id := id;
     pf_name := Js.or_else (c_name profile) (c_email profile);
     pf_given_name := c_given_name profile;
     pf_family_name := c_family_name profile;
     pf_picture := c_picture profile;
     pf_email := c_email profile |}.

(** [ticket.getPayload()] and the required-field check. *)
Definition extractProfile (ticket : LoginTicket) : M Profile :=
  match getPayload ticket with
  | None =>
      respond 400 (JsonError "Invalid token"
                     "Failed to extract user profile from token")
  | Some profile =>
      match sub profile with
      | Some id =>
          return_if (negb (Js.truthy (sub profile))
                     || negb (Js.truthy (c_email profile))) 400
            (JsonError "Incomplete profile"
               "Required user information missing from Google profile") ;;
          ret (userProfileOf id profile)
      | None =>
          respond 400 (JsonError "Incomplete profile"
                  "Required user information missing from Google profile")
      end
  end.

(** Parameter checks and identity verification, up to the provider name
    and the trusted profile. *)
Definition oAuthMobile_verify (w : World) (tokenId reqProvider : option string)
  : M (string * Profile) :=
  match tokenId, reqProvider with
  | Some tok, Some prov =>
      return_if (negb (Js.truthy tokenId)) 400
        (JsonError "Missing token ID" "Token ID is required") ;;
      return_if (negb (Js.truthy reqProvider)) 400
        (JsonError "Missing provider" "Provider is required") ;;
      return_if (negb (Js.mem (Js.toLowerCase prov) supportedProviders)) 400
        (JsonError "Unsupported provider"
           ("Provider '" ++ prov ++ "' is not supported. Supported providers: "
            ++ String.concat ", " supportedProviders)) ;;
      return_if (negb (Js.toLowerCase prov =? "google")) 400
        (JsonError "Provider not implemented"
           "Only Google OAuth is currently implemented") ;;
      decoded <- decodeTokenPayload w tok ;;
      tokenPayload <-
        match decoded with
        | Some claims => ret claims
        | None =>
            throw (TypeError "Cannot read properties of null (reading 'aud')")
        end ;;
      ticket <- verifyTicket w tok tokenPayload ;;
      userProfile <- extractProfile ticket ;;
      ret (prov, userProfile)
  | None, _ =>
      respond 400 (JsonError "Missing token ID" "Token ID is required")
  | Some _, None =>
      return_if (negb (Js.truthy tokenId)) 400
        (JsonError "Missing token ID" "Token ID is required") ;;
      respond 400 (JsonError "Missing provider" "Provider is required")
  end.

(** Find-or-create, from the answer of [findOne] on. *)
Definition reconcileMobile_found (w : World) (now : Z) (reqProvider : string)
           (userProfile : Profile) (found : option User) : M User :=
  match found with
  | Some user => User_save w (mobileUpdate userProfile reqProvider now user)
  | None => User_create w (mobileNewUserData userProfile reqProvider now)
  end.

Definition reconcileMobile (w : World) (now : Z) (reqProvider : string)
           (userProfile : Profile) : M User :=
  found <- findOne (pf_id userProfile) ;;
  reconcileMobile_found w now reqProvider userProfile found.

Definition oAuthMobile_catch (error : Exn) : Response :=
  if exn_name error =? "ValidationError" then
    mkResponse 400 (JsonValidation "Validation error"
                      "User data validation failed" (exn_message error))
  else
    mkResponse 500 (JsonError "Internal server error"
                      "An error occurred during OAuth mobile authentication").

Definition oAuthMobile (w : World) (now : Z)
           (tokenId reqProvider : option string)
  : Store -> Response * Store :=
  try_catch
    (verified <- oAuthMobile_verify w tokenId reqProvider ;;
     user <- reconcileMobile w now (fst verified) (snd verified) ;;
     issue w now user mobileSummary)
    oAuthMobile_catch.

(** A request that had its [findOne] answered against an earlier state
    of the collection and resumes against [s]: the interleaving of two
    requests at the [await]. *)
Definition oAuthMobile_resume (w : World) (now : Z) (reqProvider : string)
           (userProfile : Profile) (found : option User)
  : Store -> Response * Store :=
  try_catch
    (user <- reconcileMobile_found w now reqProvider userProfile found ;;
     issue w now user mobileSummary)
    oAuthMobile_catch.

(** *** The refresh endpoint: [loginWithToken] *)

Definition loginWithToken (w : World) (now : Z) (refreshToken : option Jwt)
  : Outcome :=
  match refreshToken with
  | None => Sent (mkResponse 500 (JsonErrorOnly "Thiếu thông tin"))
  | Some rt =>
      match Token_refresh w now rt with
      | inr token => Sent (mkResponse 200 (JsonTokens token))
      | inl error => Unhandled error
      end
  end.

Local Close Scope handler_scope.

(** ** plugin/config and plugin/token *)

(** [process.env.X || fallback] *)
Definition env_or (v : option string) (fallback : string) : string :=
  match v with
  | Some s => if s =? "" then fallback else s
  | None => fallback
  end.

Definition key_access (JWT_ACCESS_SECRET : option string) : string :=
  env_or JWT_ACCESS_SECRET "k2y_acc3ss".
Definition key_refresh (JWT_REFRESH_SECRET : option string) : string :=
  env_or JWT_REFRESH_SECRET "k2y_refr3sh".

Definition payload_eqb (a b : Payload) : bool :=
  option_string_eqb (p_name a) (p_name b)
  && (p_idUser a =? p_idUser b)%nat
  && (p_role a =? p_role b).

Definition mac_eqb (a b : Mac) : bool :=
  (mac_key a =? mac_key b)
  && payload_eqb (mac_payload a) (mac_payload b)
  && (mac_iat a =? mac_iat b)%Z
  && (mac_exp a =? mac_exp b)%Z.

Module Token.

Section Issuer.

(** The two signing secrets and the two lifetimes. *)
Variables (secret_access secret_refresh : string).
Variables (ttl_access ttl_refresh : Z).

Definition make (secret : string) (ttl now : Z) (payload : Payload) : Jwt :=
  {| jwt_payload := payload;
     jwt_iat := now;
     jwt_exp := (now + ttl)%Z;
     jwt_sig := mkMac secret payload now (now + ttl)%Z |}.

(** Signature and expiry check of a token under a secret. *)
Definition verify (secret : string) (now : Z) (t : Jwt) : bool :=
  mac_eqb (jwt_sig t)
          (mkMac secret (jwt_payload t) (jwt_iat t) (jwt_exp t))
  && (now <? jwt_exp t)%Z.

(** What a token decodes to for a holder of the secret, as
    [jwt.verify (accessToken, key_access, ..)] of middleware/auth reads
    it. *)
Definition decode (secret : string) (now : Z) (t : Jwt) : option Payload :=
  if verify secret now t then Some (jwt_payload t) else None.

(** Modelled from the spec: [Token.sign] of plugin/token, which is not
    among the sources.  "Sign an access token with short expiry and a
    refresh token with long expiry, both using a server-held secret
    distinct per token class." *)
Definition sign (now : Z) (payload : Payload) : Exn + Tokens :=
  inr {| accessToken := make secret_access ttl_access now payload;
         refreshToken := make secret_refresh ttl_refresh now payload |}.

Definition InvalidRefreshTokenError : Exn :=
  mkExn "InvalidRefreshTokenError" "refresh token invalid or expired".

(** Modelled from the spec: [Token.refresh] of plugin/token, which is not
    among the sources.  "Given a valid, non-expired refresh token, verify
    its signature and re-issue a fresh access token (and optionally a
    fresh refresh token) bound to the same claims; fails with
    InvalidRefreshTokenError if signature/expiry check fails." *)
Definition refresh (now : Z) (rt : Jwt) : Exn + Tokens :=
  if verify secret_refresh now rt then sign now (jwt_payload rt)
  else inl InvalidRefreshTokenError.

End Issuer.

End Token.

(** A world whose token plugin is the one above, keyed from the
    environment as plugin/config does. *)
Definition with_tokens (w : World)
           (JWT_ACCESS_SECRET JWT_REFRESH_SECRET : option string)
           (ttl_access ttl_refresh : Z) : World :=
  let ka := key_access JWT_ACCESS_SECRET in
  let kr := key_refresh JWT_REFRESH_SECRET in
  {| GOOGLE_CLIENT_ID := GOOGLE_CLIENT_ID w;
     GOOGLE_CLIENT_SECRET := GOOGLE_CLIENT_SECRET w;
     FRONTEND_URL := FRONTEND_URL w;
     post_token := post_token w;
     get_userinfo := get_userinfo w;
     decode_claims := decode_claims w;
     check_signature := check_signature w;
     isEmail := isEmail w;
     isURL := isURL w;
     Token_sign := Token.sign ka kr ttl_access ttl_refresh;
     Token_refresh := Token.refresh ka kr ttl_access ttl_refresh |}.

(** ** A concrete world, for the examples *)

Module Sample.

Definition claims (audience : string) : IdClaims :=
  {| aud := Some audience; sub := Some "g123"; c_email := Some "a@b.com";
     c_name := None; c_given_name := None; c_family_name := None;
     c_picture := None |}.

Definition webProfile : Profile :=
  {| pf_id := "g123"; pf_name := Some "Ann Bee";
     pf_given_name := Some "Ann"; pf_family_name := Some "Bee";
     pf_picture := Some "https://img.example/ann.png";
     pf_email := Some "a@b.com" |}.

(** One configured client, [client-123].  Identity tokens are
    [h.<claims>.<signature>]: the claims segments [c123] and [c999]
    decode, with audience [client-123] and [client-999]; the signature
    [ok] passes the provider's checks.  The token endpoint accepts the
    codes [good] and [bare], the latter with an answer that carries no
    [access_token]. *)
Definition world : World :=
  {| GOOGLE_CLIENT_ID := Some "client-123";
     GOOGLE_CLIENT_SECRET := Some "s3cret";
     FRONTEND_URL := Some "https://shop.example";
     post_token := fun params =>
       if code params =? "good" then
         HttpData (Some {| access_token := Some "ya29" |})
       else if code params =? "bare" then
         HttpData (Some {| access_token := None |})
       else HttpFailed (Error "Request failed with status code 400");
     get_userinfo := fun accessToken =>
       if option_string_eqb accessToken (Some "ya29") then
         HttpData (Some webProfile)
       else HttpFailed (Error "Request failed with status code 401");
     decode_claims := fun seg =>
       if seg =? "c123" then DecodedObject (claims "client-123")
       else if seg =? "c999" then DecodedObject (claims "client-999")
       else DecodeThrows (mkExn "SyntaxError" "Unexpected token");
     check_signature := fun idToken =>
       match Js.split idToken "." with
       | [_; _; "ok"] => None
       | _ => Some (Error "Invalid token signature")
       end;
     isEmail := fun s => Js.includes s "@";
     isURL := fun s => String.prefix "https://" s;
     Token_sign := Token.sign (key_access None) (key_refresh None)
                     900000 604800000;
     Token_refresh := Token.refresh (key_access None) (key_refresh None)
                        900000 604800000 |}.

(** The same world with a token plugin that cannot sign. *)
Definition worldNoSigning : World :=
  {| GOOGLE_CLIENT_ID := GOOGLE_CLIENT_ID world;
     GOOGLE_CLIENT_SECRET := GOOGLE_CLIENT_SECRET world;
     FRONTEND_URL := FRONTEND_URL world;
     post_token := post_token world;
     get_userinfo := get_userinfo world;
     decode_claims := decode_claims world;
     check_signature := check_signature world;
     isEmail := isEmail world;
     isURL := isURL world;
     Token_sign := fun _ _ => inl (Error "secretOrPrivateKey must have a value");
     Token_refresh := Token_refresh world |}.

(** A password account, as [register] leaves it. *)
Definition passwordUser : User :=
  {| _id := 1; name := Some "Ann"; email := Some "a@b.com";
     password := Some "5e884898da28047151d0e56f8dc62927";
     role := "user"; firstName := None; lastName := None; avatar := None;
     isEmailVerified := false; googleId := None; isGoogleUser := false;
     provider := None; isActive := true; lastLogin := None;
     loginAttempts := 0 |}.

(** The account a first mobile login with subject [g123] creates at time
    [now] in an empty collection. *)
Definition googleUser (now : Z) : User :=
  {| _id := 1; name := Some "a@b.com"; email := Some "a@b.com";
     password := None; role := "customer"; firstName := None;
     lastName := None; avatar := None; isEmailVerified := true;
     googleId := Some "g123"; isGoogleUser := true;
     provider := Some "google"; isActive := true; lastLogin := Some now;
     loginAttempts := 0 |}.

(** An account that carries a Google identifier but no provider: a
    password account linked by hand ([linkedUser]), and a Google account
    written before the provider path existed ([legacyGoogleUser]). *)
Definition linkedUser : User :=
  {| _id := 1; name := Some "Ann"; email := Some "a@b.com";
     password := Some "5e884898da28047151d0e56f8dc62927";
     role := "admin"; firstName := None; lastName := None; avatar := None;
     isEmailVerified := true; googleId := Some "g123";
     isGoogleUser := false; provider := None; isActive := true;
     lastLogin := None; loginAttempts := 0 |}.

Definition legacyGoogleUser : User :=
  {| _id := 1; name := Some "Ann"; email := Some "a@b.com";
     password := None;
     role := "customer"; firstName := None; lastName := None;
     avatar := None; isEmailVerified := true; googleId := Some "g123";
     isGoogleUser := true; provider := None; isActive := true;
     lastLogin := None; loginAttempts := 0 |}.


Definition longProfile : Profile :=
  {| pf_id := "g123";
     pf_name := Some (String.concat "" (repeat "0123456789" 11));
     pf_given_name := None; pf_family_name := None; pf_picture := None;
     pf_email := Some "a@b.com" |}.

(** A Google account whose role was raised to [admin] out of band. *)
Definition adminUser : User :=
  {| _id := 7; name := Some "Ann"; email := Some "a@b.com";
     password := None; role := "admin"; firstName := None;
     lastName := None; avatar := None; isEmailVerified := true;
     googleId := Some "g123"; isGoogleUser := true;
     provider := Some "google"; isActive := true; lastLogin := Some 10%Z;
     loginAttempts := 0 |}.

(** A refresh token signed with the access secret instead of the refresh
    secret. *)
Definition forgedRefreshToken : Jwt :=
  Token.make (key_access None) 604800000 0
    {| p_name := Some "Ann"; p_idUser := 1; p_role := "admin" |}.

(** The profile the mobile flow builds from the [c123] claims. *)
Definition mobileProfile : Profile := userProfileOf "g123" (claims "client-123").

End Sample.

(** ** The responses the properties name *)

Definition TokenExchangeError : Response :=
  mkResponse 400 (JsonError "Token exchange failed"
    "Failed to exchange authorization code for access token").

Definition ProfileFetchError : Response :=
  mkResponse 400 (JsonError "Profile fetch failed"
    "Failed to fetch user profile from Google").

Definition InternalError : Response :=
  mkResponse 500 (JsonError "Internal server error"
    "An error occurred during OAuth mobile authentication").

Definition CallbackInternalError : Response :=
  mkResponse 500 (JsonError "Internal server error"
    "An error occurred during OAuth authentication").

(** An error response: a 4xx or 5xx status. *)
Definition isErrorResponse (r : Response) : Prop := 400 <= status r.

(** * The rest of the authentication code *)

(** ** controller/auth: [register] and [login] *)

(** The bodies these two handlers and the [auth] middleware send. *)
Inductive AuthBody :=
| AuthError (error : string)                  (* [{ error: ".." }] *)
| AuthThrown (error : Exn)                    (* [{ error }], the caught error *)
| AuthMessage (message : string)              (* [{ message: ".." }] *)
| AuthSuccess                                 (* [{ success: true }] *)
| AuthTokens (tokens : Tokens) (idUser : nat) (* [{ ...generateToken, idUser }] *).

Record AuthResponse := mkAuth { auth_status : nat; auth_body : AuthBody }.

(** [login] has no [try]: what [Token.sign] throws leaves the handler. *)
Inductive AuthOutcome :=
| AuthSent (r : AuthResponse)
| AuthUnhandled (e : Exn).

(** What [await] hands to the handler from a model call: the value or the
    exception.  A model call answers no request, so [Return] does not
    arise from [User_create] or [User_save]; it is read as an exception. *)
Definition awaited {A} (c : Completion A) : Exn + A :=
  match c with
  | Normal a => inr a
  | Throw e => inl e
  | Return _ => inl (Error "a model call does not answer the request")
  end.

Definition set_password (v : option string) (u : User) : User :=
  mkUser (_id u) (name u) (email u) v (role u) (firstName u)
         (lastName u) (avatar u) (isEmailVerified u) (googleId u)
         (isGoogleUser u) (provider u) (isActive u) (lastLogin u)
         (loginAttempts u).

(** The document a query hands to a handler that reads it: [password] is
    declared [select: false] and no query of the controller asks for it. *)
Definition selected (u : User) : User := set_password None u.

(** [User.findOne({ email })].  The filter value is cast through the
    setters of the path ([lowercase], [trim]) as a document value is. *)
Definition findOne_email (e : string) (s : Store) : option User :=
  option_map selected (find (hasEmail (setEmail (Some e))) s).

Definition registerData (hashPassword name email : string) : UserData :=
  {| d_googleId := None;
     d_name := Some name;
     d_firstName := None;
     d_lastName := None;
     d_avatar := None;
     d_email := Some email;
     d_password := Some hashPassword;
     d_isGoogleUser := None;
     d_isEmailVerified := None;
     d_role := Some "user";
     d_lastLogin := None;
     d_provider := None |}.

Definition MissingInformation : AuthResponse :=
  mkAuth 500 (AuthError "Thiếu thông tin").
Definition AccountExists : AuthResponse :=
  mkAuth 500 (AuthError "Tài khoản đã tồn tại!").
Definition WrongCredentials (code : nat) : AuthResponse :=
  mkAuth code (AuthMessage "Tài khoản hoặc mật khẩu sai").

(** [register]; [sha256] is plugin/sha256, which is not among the
    sources. *)
Definition register (w : World) (sha256 : string -> string)
           (body_email body_name body_password : option string)
  : Store -> AuthResponse * Store :=
  fun s =>
    match body_email, body_password, body_name with
    | Some e, Some p, Some n =>
        if negb (Js.truthy body_email) || negb (Js.truthy body_password)
           || negb (Js.truthy body_name)
        then (MissingInformation, s)
        else
          match findOne_email e s with
          | Some checkUsername => (AccountExists, s)
          | None =>
              let hashPassword := sha256 p in
              let created := User_create w (registerData hashPassword n e) s in
              match awaited (fst created) with
              | inr _ => (mkAuth 200 AuthSuccess, snd created)
              | inl error => (mkAuth 400 (AuthThrown error), snd created)
              end
          end
    | _, _, _ => (MissingInformation, s)
    end.

(** [login]. *)
Definition login (w : World) (sha256 : string -> string) (now : Z)
           (body_email body_password : option string) (s : Store)
  : AuthOutcome :=
  match body_email, body_password with
  | Some e, Some p =>
      if negb (Js.truthy body_email) || negb (Js.truthy body_password)
      then AuthSent MissingInformation
      else
        match findOne_email e s with
        | None => AuthSent (WrongCredentials 500)
        | Some user =>
            let hashPassword := sha256 p in
            if option_string_eqb (Some hashPassword) (password user) then
              match Token_sign w now (payload_of user) with
              | inr generateToken =>
                  AuthSent (mkAuth 200 (AuthTokens generateToken (_id user)))
              | inl e => AuthUnhandled e
              end
            else AuthSent (WrongCredentials 401)
        end
  | _, _ => AuthSent MissingInformation
  end.

(** ** middleware/auth *)

Inductive AuthDecision (D : Type) :=
| Next (decoded : D)            (* [req.decoded = decoded; next()] *)
| Denied (r : AuthResponse).
Arguments Next {D} decoded.
Arguments Denied {D} r.

Definition deny {D} (message : string) : AuthDecision D :=
  Denied (mkAuth 401 (AuthMessage message)).

(** [auth]; [jwt_verify token secret] is [jwt.verify] of the jsonwebtoken
    package, which hands the callback an error or the decoded claims. *)
Definition auth {D} (jwt_verify : string -> string -> Exn + D)
           (JWT_ACCESS_SECRET : option string)
           (authorization : option string) : AuthDecision D :=
  match authorization with
  | Some header =>
      if negb (Js.truthy authorization) then
        deny "Authorization header is required"
      else
        let parts := Js.split header " " in
        if negb (length parts =? 2)%nat
           || negb (nth 0 parts "" =? "Bearer")
        then deny "Authorization header format must be: Bearer <token>"
        else
          let accessToken := nth 1 parts "" in
          if accessToken =? "" then deny "Access token is required"
          else
            match jwt_verify accessToken (key_access JWT_ACCESS_SECRET) with
            | inl err =>
                if exn_name err =? "TokenExpiredError" then
                  deny "Token has expired"
                else if exn_name err =? "JsonWebTokenError" then
                  deny "Invalid token"
                else deny "Token verification failed"
            | inr decoded => Next decoded
            end
  | None => deny "Authorization header is required"
  end.

(** ** plugin/passport *)

(** The profile passport-google-oauth20 hands to the verify callback:
    [id], [displayName], the [name] object with its two names, and the
    [value]s of [photos] and [emails] (an absent array reads as the empty
    one: indexing either throws the same [TypeError]). *)
Record PassportProfile := mkPassportProfile {
  pp_id : string;
  displayName : option string;
  givenName : option string;
  familyName : option string;
  photos : list string;
  emails : list string
}.

(** How the verify callback ends: [done(null, user)], [done(err, null)],
    or a rejection before the [try]. *)
Inductive Verified :=
| DoneUser (user : User)
| DoneError (err : Exn)
| VerifyRejected (e : Exn).

Definition passportNewUser (profile : PassportProfile) (photo mail : string)
  : UserData :=
  {| d_googleId := Some (pp_id profile);
     d_name := displayName profile;
     d_firstName := givenName profile;
     d_lastName := familyName profile;
     d_avatar := Some photo;
     d_email := Some mail;
     d_password := None;
     d_isGoogleUser := Some true;
     d_isEmailVerified := Some true;
     d_role := None;
     d_lastLogin := None;
     d_provider := None |}.

Definition passportUpdate (profile : PassportProfile) (photo : string)
           (now : Z) (user : User) : User :=
  let user := set_name (displayName profile) user in
  let user := set_firstName (givenName profile) user in
  let user := set_lastName (familyName profile) user in
  let user := set_avatar (Some photo) user in
  set_lastLogin (Some now) user.

Definition done (result : Completion User * Store) : Verified * Store :=
  match awaited (fst result) with
  | inr user => (DoneUser user, snd result)
  | inl err => (DoneError err, snd result)
  end.

(** The verify callback of the Google strategy.  [photos[0].value] and
    [emails[0].value] are read while [newUser] is built, before the
    [try]. *)
Definition googleVerify (w : World) (now : Z) (profile : PassportProfile)
  : Store -> Verified * Store :=
  fun s =>
    match photos profile, emails profile with
    | photo :: _, mail :: _ =>
        match findOne_googleId (pp_id profile) s with
        | Some user => done (User_save w (passportUpdate profile photo now user) s)
        | None => done (User_create w (passportNewUser profile photo mail) s)
        end
    | _, _ =>
        (VerifyRejected
           (TypeError "Cannot read properties of undefined (reading 'value')"),
         s)
    end.

(** [passport.serializeUser] and [passport.deserializeUser]. *)
Definition serializeUser (user : User) : nat := _id user.

Definition findById (id : nat) (s : Store) : option User :=
  option_map selected (find (fun u => (_id u =? id)%nat) s).

Definition deserializeUser (id : nat) (s : Store) : option User :=
  findById id s.

(** The profile of the browser flow that carries what a passport profile
    carries. *)
Definition asProfile (profile : PassportProfile) (photo mail : string)
  : Profile :=
  {| pf_id := pp_id profile;
     pf_name := displayName profile;
     pf_given_name := givenName profile;
     pf_family_name := familyName profile;
     pf_picture := Some photo;
     pf_email := Some mail |}.

(** ** model/user.ts: virtuals and instance methods *)

(** The virtual [fullName]. *)
Definition fullName (u : User) : option string :=
  match firstName u, lastName u with
  | Some f, Some l =>
      if Js.truthy (Some f) && Js.truthy (Some l)
      then Some (f ++ " " ++ l) else name u
  | _, _ => name u
  end.

(** The two paths the lock methods read and write; [lockUntil] and the
    clock are in milliseconds.  A path is [None] when the stored document
    does not have it. *)
Record Lock := mkLock {
  stored_loginAttempts : option nat;
  lockUntil : option Z
}.

(** [this.loginAttempts]: hydration fills in the schema default. *)
Definition attempts (l : Lock) : nat := with_default 0 (stored_loginAttempts l).

(** The virtual [isLocked]. *)
Definition isLocked (now : Z) (l : Lock) : bool :=
  match lockUntil l with
  | Some t => (now <? t)%Z
  | None => false
  end.

(** An update document, as far as these methods build one. *)
Record Update := mkUpdate {
  inc_loginAttempts : option nat;      (* [$inc] *)
  set_loginAttempts : option nat;      (* [$set] *)
  set_lockUntil : option Z;            (* [$set] *)
  unset_loginAttempts : bool;          (* [$unset] *)
  unset_lockUntil : bool               (* [$unset] *)
}.

Definition two_hours : Z := 2 * 60 * 60 * 1000.

(** [incrementLoginAttempts], at time [now]. *)
Definition incrementLoginAttempts (now : Z) (this : Lock) : Update :=
  match lockUntil this with
  | Some t =>
      if (t <? now)%Z then
        mkUpdate None (Some 1) None false true
      else
        mkUpdate (Some 1) None
                 (if (5 <=? attempts this + 1)%nat && negb (isLocked now this)
                  then Some (now + two_hours)%Z else None)
                 false false
  | None =>
      mkUpdate (Some 1) None
               (if (5 <=? attempts this + 1)%nat && negb (isLocked now this)
                then Some (now + two_hours)%Z else None)
               false false
  end.

(** [resetLoginAttempts]. *)
Definition resetLoginAttempts (this : Lock) : Update :=
  mkUpdate None None None true true.

(** [updateOne] on the stored paths: [$inc] of a missing path counts from
    zero. *)
Definition updateOne (u : Update) (l : Lock) : Lock :=
  let a :=
    if unset_loginAttempts u then None
    else match set_loginAttempts u with
         | Some n => Some n
         | None =>
             match inc_loginAttempts u with
             | Some k => Some (with_default 0 (stored_loginAttempts l) + k)
             | None => stored_loginAttempts l
             end
         end in
  let t :=
    if unset_lockUntil u then None
    else match set_lockUntil u with
         | Some v => Some v
         | None => lockUntil l
         end in
  mkLock a t.

(** A failed attempt at [now]: the method is called on the document as
    loaded and its update is applied to the stored paths.  And a run of
    failed attempts at the given times. *)
Definition failedAttempt (now : Z) (l : Lock) : Lock :=
  updateOne (incrementLoginAttempts now l) l.

Definition failedAttempts (times : list Z) (l : Lock) : Lock :=
  fold_left (fun l now => failedAttempt now l) times l.

(** ** What the handlers keep *)

(** Distinct identifiers and distinct addresses. *)
Definition wellKeyed (s : Store) : Prop :=
  NoDup (map _id s) /\ NoDup (map email s).

(** Every document passes the validators that run when it is saved. *)
Definition allValid (w : World) (s : Store) : Prop :=
  forall u, In u s -> invalidPaths w false u = [].

(** The identity paths of an account. *)
Definition identity (u : User) : nat * option string * option string :=
  (_id u, email u, googleId u).

(** What the verification stage of the mobile flow answers when it
    refuses: a 400 or a 401, and not the answer of its second provider
    check. *)
Definition mobileRefusal (r : Response) : Prop :=
  (status r = 400 \/ status r = 401)
  /\ body r <> JsonError "Provider not implemented"
                         "Only Google OAuth is currently implemented".

(** What one request does to the collection: nothing, one [User.create],
    or one [save] of a document loaded from it, with its identity paths
    as loaded. *)
Definition writesOnce (w : World) (s s' : Store) : Prop :=
  s' = s
  \/ (exists d u, User_create w d s = (Normal u, s'))
  \/ (exists u0 u u',
         In u0 s /\ identity u = identity u0
         /\ User_save w u s = (Normal u', s')).

(** The shape of a collection after a request that deleted nothing and
    touched at most one account. *)
Definition framed (s s' : Store) : Prop :=
  s' = s
  \/ (exists u, s' = (s ++ [u])%list)
  \/ (exists l u0 u' r,
         s = (l ++ u0 :: r)%list /\ s' = (l ++ u' :: r)%list
         /\ identity u' = identity u0).

(** * Properties *)

(** ** Strings and options *)

Lemma option_string_eqb_true (a b : option string) :
  option_string_eqb a b = true <-> a = b.
Proof.
  destruct a as [x|], b as [y|]; simpl; split; intro H;
    try discriminate; try reflexivity.
  - apply String.eqb_eq in H. now subst.
  - injection H as ->. apply String.eqb_refl.
Qed.

Lemma option_string_eqb_refl (a : option string) :
  option_string_eqb a a = true.
Proof. now apply option_string_eqb_true. Qed.

Lemma truthy_Some (s : string) : Js.truthy (Some s) = true <-> s <> "".
Proof.
  unfold Js.truthy. destruct (String.eqb_spec s ""); simpl; split;
    intros; try congruence; try discriminate.
Qed.

(** On a string of 7-bit characters the code units are the bytes. *)
Lemma length_isAscii (s : string) :
  Js.isAscii s = true -> Js.length s = String.length s.
Proof.
  induction s as [|c r IH]; [reflexivity |].
  cbn [Js.isAscii Js.length String.length]. intro H.
  apply andb_prop in H. destruct H as [Hc Hr].
  rewrite (IH Hr). unfold Js.units.
  apply Nat.ltb_lt in Hc.
  replace (128 <=? nat_of_ascii c)%nat with false
    by (symmetry; apply Nat.leb_gt; lia).
  replace (240 <=? nat_of_ascii c)%nat with false
    by (symmetry; apply Nat.leb_gt; lia).
  reflexivity.
Qed.

(** Outside that range: a name that ends in U+00A0 is trimmed, and a
    first name of thirty three-byte letters has length thirty. *)
Lemma trim_no_break_space :
  Js.trim ("Bob" ++ String (ascii_of_nat 194) (String (ascii_of_nat 160) ""))
  = "Bob".
Proof. reflexivity. Qed.

Lemma length_in_code_units :
  Js.length (String.concat "" (repeat "ế" 30)) = 30
  /\ maxlength 50 (Some (String.concat "" (repeat "ế" 30))) = true.
Proof. split; reflexivity. Qed.

Lemma mem_In (x : string) (l : list string) : Js.mem x l = true <-> In x l.
Proof.
  unfold Js.mem. rewrite existsb_exists. split.
  - intros [y [Hy E]]. apply String.eqb_eq in E. now subst.
  - intro H. exists x. split; [assumption | apply String.eqb_refl].
Qed.

(** A provider name that passes the supported-provider check is
    [google] once lower-cased. *)
Lemma supported_is_google (prov : string) :
  Js.mem (Js.toLowerCase prov) supportedProviders = true ->
  Js.toLowerCase prov = "google".
Proof.
  rewrite mem_In. simpl. intros [H | []]. now symmetry.
Qed.

(** ** Identity verification *)

(** The list handed to the verifier always holds the token's own
    audience, whatever client is configured. *)
Lemma own_audience_allowed (w : World) (claims : IdClaims) (a : string) :
  aud claims = Some a -> a <> "" ->
  Js.mem a (allowedAudiences w claims) = true.
Proof.
  intros Ha Hne. unfold allowedAudiences. rewrite Ha. apply mem_In.
  apply String.eqb_neq in Hne.
  destruct (GOOGLE_CLIENT_ID w) as [c|]; simpl.
  - destruct (c =? ""); rewrite Hne; simpl; auto.
  - rewrite Hne. simpl. auto.
Qed.

(** So a token that decodes and passes the signature checks passes
    verification, configured audience or not. *)
Lemma verifyTicket_ignores_configured_audience
      (w : World) (tokenId seg a : string) (claims : IdClaims) (s : Store) :
  claimsSegment tokenId = Some seg ->
  decode_claims w seg = DecodedObject claims ->
  check_signature w tokenId = None ->
  aud claims = Some a -> a <> "" ->
  verifyTicket w tokenId claims s = (Normal (mkTicket (Some claims)), s).
Proof.
  intros Hseg Hdec Hsig Ha Hne. unfold verifyTicket, verifyIdToken.
  rewrite Hseg, Hdec, Hsig, Ha.
  now rewrite (own_audience_allowed w claims a Ha Hne).
Qed.

(** C1, at the input of the specification's scenario: the configured
    client is [client-123], the token's audience is [client-999] and its
    signature is good.  The mobile flow answers 200 and creates the
    account; no audience mismatch is reported. *)
Theorem oAuthMobile_accepts_foreign_audience :
  GOOGLE_CLIENT_ID Sample.world = Some "client-123" /\
  decode_claims Sample.world "c999"
    = DecodedObject (Sample.claims "client-999") /\
  exists tokens,
    Token_sign Sample.world 1000 (payload_of (Sample.googleUser 1000))
      = inr tokens
    /\ oAuthMobile Sample.world 1000 (Some "h.c999.ok") (Some "google") []
       = (mkResponse 200
            (JsonLogin (mobileSummary (Sample.googleUser 1000)) tokens),
          [Sample.googleUser 1000]).
Proof.
  split; [reflexivity | split; [reflexivity |]].
  eexists. split; [reflexivity |]. vm_compute. reflexivity.
Qed.

(** ** Code exchange *)

Lemma exchange_rejected (w : World) (c : string) (e : Exn) :
  post_token w (tokenParams w c) = HttpFailed e ->
  exchangeCodeForToken w c = None.
Proof. unfold exchangeCodeForToken. now intros ->. Qed.

(** C2 as stated fails: an exchange answer without [access_token] does
    not end in the token-exchange error. *)
Lemma missing_access_token_not_TokenExchangeError :
  ~ (forall (w : World) (now : Z) (c : string) (s : Store) (td : TokenData),
        c <> "" ->
        post_token w (tokenParams w c) = HttpData (Some td) ->
        access_token td = None ->
        oauthCallback w now (Some c) s = (TokenExchangeError, s)).
Proof.
  intro H.
  specialize (H Sample.world 0%Z "bare" [] (mkTokenData None)).
  assert (E : oauthCallback Sample.world 0 (Some "bare") []
              = (TokenExchangeError, [])).
  { apply H; [discriminate | reflexivity | reflexivity]. }
  vm_compute in E. discriminate E.
Qed.

(** C2, amended: a rejected exchange ends in the token-exchange error; an
    answer without [access_token] leads to a profile request without a
    token and, once that is refused, to the profile-fetch error.  Either
    way the response is a 400 and the collection is untouched. *)
Theorem oauthCallback_exchange_failure
        (w : World) (now : Z) (c : string) (s : Store) :
  c <> "" ->
  ((exists e, post_token w (tokenParams w c) = HttpFailed e) ->
   oauthCallback w now (Some c) s = (TokenExchangeError, s))
  /\
  (forall td,
      post_token w (tokenParams w c) = HttpData (Some td) ->
      access_token td = None ->
      (exists e, get_userinfo w None = HttpFailed e) ->
      oauthCallback w now (Some c) s = (ProfileFetchError, s)).
Proof.
  intro Hc. apply truthy_Some in Hc.
  split.
  - intros [e He].
    unfold oauthCallback, try_catch, bind, oauthCallback_verify, bind,
      return_if.
    rewrite Hc. simpl. now rewrite (exchange_rejected w c e He).
  - intros td Htd Hnone [e He].
    unfold oauthCallback, try_catch, bind, oauthCallback_verify, bind,
      return_if.
    rewrite Hc. simpl. unfold exchangeCodeForToken. rewrite Htd.
    unfold getUserProfile. rewrite Hnone, He. reflexivity.
Qed.

(** Both cases at the sample provider: a code it refuses, and the code
    it answers without [access_token]. *)
Lemma oauthCallback_exchange_failure_witness :
  oauthCallback Sample.world 0 (Some "used") [Sample.passwordUser]
    = (TokenExchangeError, [Sample.passwordUser])
  /\ oauthCallback Sample.world 0 (Some "bare") [Sample.passwordUser]
    = (ProfileFetchError, [Sample.passwordUser]).
Proof.
  split.
  - apply (oauthCallback_exchange_failure Sample.world 0 "used"
             [Sample.passwordUser]); [discriminate |].
    eexists. reflexivity.
  - apply (oauthCallback_exchange_failure Sample.world 0 "bare"
             [Sample.passwordUser]) with (td := mkTokenData None);
      [discriminate | reflexivity | reflexivity |].
    eexists. reflexivity.
Defined.

(** ** Session tokens *)

Lemma payload_eqb_refl (p : Payload) : payload_eqb p p = true.
Proof.
  unfold payload_eqb.
  now rewrite option_string_eqb_refl, Nat.eqb_refl, String.eqb_refl.
Qed.

Lemma mac_eqb_refl (m : Mac) : mac_eqb m m = true.
Proof.
  unfold mac_eqb.
  now rewrite String.eqb_refl, payload_eqb_refl, !Z.eqb_refl.
Qed.

(** A token checks under the secret it was made with until it expires. *)
Lemma verify_make (secret : string) (ttl issued now : Z) (p : Payload) :
  Token.verify secret now (Token.make secret ttl issued p)
  = (now <? issued + ttl)%Z.
Proof. unfold Token.verify, Token.make. simpl. now rewrite mac_eqb_refl. Qed.

(** C3 as stated fails: a refresh token that does not check is not
    answered with a 401. *)
Lemma invalid_refresh_token_not_401 :
  ~ (forall (w : World) (a r : option string) (ta tr now : Z) (rt : Jwt),
        Token.verify (key_refresh r) now rt = false ->
        exists b,
          loginWithToken (with_tokens w a r ta tr) now (Some rt)
          = Sent (mkResponse 401 b)).
Proof.
  intro H.
  destruct (H Sample.world None None 900000%Z 604800000%Z 5%Z
              Sample.forgedRefreshToken eq_refl) as [b Hb].
  vm_compute in Hb. discriminate Hb.
Qed.

(** C3, amended, over the token plugin modelled from the specification:
    a refresh token the issuer signed, presented before it expires, is
    answered 200 with an access token that decodes to the same [idUser];
    a refresh token that fails the signature or expiry check makes
    [Token.refresh] throw InvalidRefreshTokenError, which the handler
    rethrows: it sends no response. *)
Theorem loginWithToken_refresh
        (w : World) (a r : option string) (ta tr issued now : Z)
        (payload : Payload) :
  (0 < ta)%Z ->
  (forall toks,
      Token_sign (with_tokens w a r ta tr) issued payload = inr toks ->
      (now < jwt_exp (refreshToken toks))%Z ->
      exists toks',
        loginWithToken (with_tokens w a r ta tr) now
                       (Some (refreshToken toks))
        = Sent (mkResponse 200 (JsonTokens toks'))
        /\ option_map p_idUser
             (Token.decode (key_access a) now (accessToken toks'))
           = Some (p_idUser payload))
  /\
  (forall rt,
      Token.verify (key_refresh r) now rt = false ->
      loginWithToken (with_tokens w a r ta tr) now (Some rt)
      = Unhandled Token.InvalidRefreshTokenError).
Proof.
  intro Hta. split.
  - intros toks Hsign Hexp. simpl in Hsign. unfold Token.sign in Hsign.
    injection Hsign as <-. simpl in Hexp.
    unfold loginWithToken. simpl. unfold Token.refresh.
    rewrite verify_make.
    apply Z.ltb_lt in Hexp. rewrite Hexp. unfold Token.sign.
    eexists. split; [reflexivity |].
    simpl. unfold Token.decode. rewrite verify_make.
    assert (E : (now <? now + ta)%Z = true) by (apply Z.ltb_lt; lia).
    now rewrite E.
  - intros rt Hbad. unfold loginWithToken. simpl. unfold Token.refresh.
    now rewrite Hbad.
Qed.

(** A refresh token issued at time 0 and presented at time 5000, and one
    signed with the wrong secret. *)
Lemma loginWithToken_refresh_witness :
  (exists toks',
      loginWithToken Sample.world 5000
        (Some (Token.make (key_refresh None) 604800000 0
                 (payload_of (Sample.googleUser 0))))
      = Sent (mkResponse 200 (JsonTokens toks'))
      /\ option_map p_idUser
           (Token.decode (key_access None) 5000 (accessToken toks'))
         = Some 1)
  /\ loginWithToken Sample.world 5000 (Some Sample.forgedRefreshToken)
     = Unhandled Token.InvalidRefreshTokenError.
Proof.
  destruct (loginWithToken_refresh Sample.world None None 900000 604800000
              0 5000 (payload_of (Sample.googleUser 0)) eq_refl)
    as [Hgood Hbad].
  split.
  - exact (Hgood _ eq_refl eq_refl).
  - exact (Hbad Sample.forgedRefreshToken eq_refl).
Defined.

(** ** What the schema hooks and the updates leave alone *)

(** The hook assigns at most [isEmailVerified] and then at most [name]. *)
Lemma preSave_cases (u : User) :
  exists v,
    (v = u \/ v = set_isEmailVerified true u)
    /\ (preSave u = v \/ exists n, preSave u = set_name n v).
Proof.
  unfold preSave.
  destruct (isGoogleUser u && negb (isEmailVerified u)).
  - exists (set_isEmailVerified true u). split; [now right |].
    destruct (firstName (set_isEmailVerified true u)) as [f|]; [| now left].
    destruct (lastName (set_isEmailVerified true u)) as [l|]; [| now left].
    match goal with |- context [if ?c then _ else _] => destruct c end;
      [right; eexists; reflexivity | now left].
  - exists u. split; [now left |].
    destruct (firstName u) as [f|]; [| now left].
    destruct (lastName u) as [l|]; [| now left].
    match goal with |- context [if ?c then _ else _] => destruct c end;
      [right; eexists; reflexivity | now left].
Qed.

Ltac by_preSave_cases u :=
  let v := fresh "v" in
  let n := fresh "n" in
  let Hv := fresh "Hv" in
  let Hp := fresh "Hp" in
  destruct (preSave_cases u) as [v [[Hv | Hv] [Hp | [n Hp]]]];
  rewrite Hp, Hv; destruct u; simpl in *; congruence.

Ltac fields u :=
  unfold mobileUpdate, callbackUpdate, backfillProvider;
  repeat match goal with
         | |- context [if ?c then _ else _] => destruct c
         end;
  destruct u; reflexivity.

Lemma preSave_id (u : User) : _id (preSave u) = _id u.
Proof. by_preSave_cases u. Qed.

Lemma preSave_email (u : User) : email (preSave u) = email u.
Proof. by_preSave_cases u. Qed.

Lemma preSave_googleId (u : User) : googleId (preSave u) = googleId u.
Proof. by_preSave_cases u. Qed.

Lemma preSave_role (u : User) : role (preSave u) = role u.
Proof. by_preSave_cases u. Qed.

Lemma preSave_provider (u : User) : provider (preSave u) = provider u.
Proof. by_preSave_cases u. Qed.

Lemma preSave_verified (u : User) :
  isEmailVerified u = true -> isEmailVerified (preSave u) = true.
Proof. intro H. by_preSave_cases u. Qed.


Lemma mobileUpdate_id p prov now (u : User) :
  _id (mobileUpdate p prov now u) = _id u.
Proof. fields u. Qed.

Lemma mobileUpdate_googleId p prov now (u : User) :
  googleId (mobileUpdate p prov now u) = googleId u.
Proof. fields u. Qed.

Lemma mobileUpdate_role p prov now (u : User) :
  role (mobileUpdate p prov now u) = role u.
Proof. fields u. Qed.

Lemma mobileUpdate_verified p prov now (u : User) :
  isEmailVerified (mobileUpdate p prov now u) = isEmailVerified u.
Proof. fields u. Qed.

Lemma callbackUpdate_id p now (u : User) :
  _id (callbackUpdate p now u) = _id u.
Proof. fields u. Qed.

Lemma callbackUpdate_googleId p now (u : User) :
  googleId (callbackUpdate p now u) = googleId u.
Proof. fields u. Qed.

Lemma callbackUpdate_role p now (u : User) :
  role (callbackUpdate p now u) = role u.
Proof. fields u. Qed.

Lemma callbackUpdate_verified p now (u : User) :
  isEmailVerified (callbackUpdate p now u) = isEmailVerified u.
Proof. fields u. Qed.

Lemma callbackUpdate_provider p now (u : User) :
  provider (callbackUpdate p now u) = provider u.
Proof. fields u. Qed.

(** The backfill assigns [provider] when it is unset and nothing else. *)
Lemma backfillProvider_sets (prov : string) (u : User) :
  Js.truthy (provider u) = false ->
  provider (backfillProvider prov u) = Some (Js.toLowerCase prov).
Proof. intro H. unfold backfillProvider. now rewrite H. Qed.

Lemma backfillProvider_frame (prov : string) (u : User) :
  backfillProvider prov u = set_provider (provider (backfillProvider prov u)) u.
Proof.
  unfold backfillProvider. destruct (Js.truthy (provider u)); now destruct u.
Qed.

(** ** The collection *)

Lemma find_app_last {A} (P : A -> bool) (s : list A) (u : A) :
  find P s = None -> P u = true -> find P (s ++ [u]) = Some u.
Proof.
  induction s as [|v r IH]; simpl; intros Hnone Hu.
  - now rewrite Hu.
  - destruct (P v); [discriminate | now apply IH].
Qed.

Lemma replaceById_In (u : User) (s s' : Store) :
  replaceById u s = Some s' -> In u s'.
Proof.
  revert s'. induction s as [|v r IH]; simpl; intros s' H; [discriminate |].
  destruct (_id v =? _id u)%nat.
  - injection H as <-. now left.
  - destruct (replaceById u r) as [r'|]; [| discriminate].
    injection H as <-. right. now apply IH.
Qed.

(** Writing back a document that still answers the query the loaded one
    answered first makes it the first answer. *)
Lemma find_replaceById (P : User -> bool) (u0 u : User) (s s' : Store) :
  find P s = Some u0 -> _id u = _id u0 -> P u = true ->
  replaceById u s = Some s' ->
  find P s' = Some u.
Proof.
  intros Hfind Hid Hu. revert s' Hfind.
  induction s as [|v r IH]; simpl; intros s' Hfind H; [discriminate |].
  destruct (_id v =? _id u)%nat eqn:E.
  - injection H as <-. simpl. now rewrite Hu.
  - destruct (replaceById u r) as [r'|] eqn:Hr; [| discriminate].
    injection H as <-. simpl.
    destruct (P v) eqn:Pv.
    + injection Hfind as ->. rewrite Hid, Nat.eqb_refl in E. discriminate.
    + now apply IH.
Qed.

(** What a successful [User.create] did. *)
Lemma User_create_Normal (w : World) (d : UserData) (s s' : Store) (u : User) :
  User_create w d s = (Normal u, s') ->
  invalidPaths w true (newDocument (nextId s) d) = []
  /\ u = preSave (newDocument (nextId s) d)
  /\ existsb (hasEmail (email u)) s = false
  /\ s' = (s ++ [u])%list.
Proof.
  unfold User_create, insertOne.
  destruct (invalidPaths w true (newDocument (nextId s) d)); [| discriminate].
  destruct (existsb _ s) eqn:E; [discriminate |].
  intro H. injection H as <- <-. auto.
Qed.

(** A failed [User.create] wrote nothing, and it never answers for the
    handler. *)
Lemma User_create_Throw (w : World) (d : UserData) (s s' : Store) (e : Exn) :
  User_create w d s = (Throw e, s') -> s' = s.
Proof.
  unfold User_create.
  destruct (invalidPaths w true (newDocument (nextId s) d)).
  - destruct (insertOne _ s); intro H; now injection H.
  - intro H. now injection H.
Qed.

Lemma User_create_no_Return (w : World) (d : UserData) (s s' : Store) r :
  User_create w d s <> (Return r, s').
Proof.
  unfold User_create.
  destruct (invalidPaths w true (newDocument (nextId s) d));
    [destruct (insertOne _ s) |]; discriminate.
Qed.

Lemma User_save_Normal (w : World) (u u' : User) (s s' : Store) :
  User_save w u s = (Normal u', s') ->
  invalidPaths w false u = []
  /\ u' = preSave u
  /\ replaceById u' s = Some s'.
Proof.
  unfold User_save.
  destruct (invalidPaths w false u); [| discriminate].
  destruct (replaceById (preSave u) s) eqn:E; [| discriminate].
  intro H. injection H as <- <-. auto.
Qed.

Lemma User_save_Throw (w : World) (u : User) (s s' : Store) (e : Exn) :
  User_save w u s = (Throw e, s') -> s' = s.
Proof.
  unfold User_save.
  destruct (invalidPaths w false u).
  - destruct (replaceById _ s); [discriminate |]. intro H. now injection H.
  - intro H. now injection H.
Qed.

Lemma User_save_no_Return (w : World) (u : User) (s s' : Store) r :
  User_save w u s <> (Return r, s').
Proof.
  unfold User_save.
  destruct (invalidPaths w false u);
    [destruct (replaceById _ s) |]; discriminate.
Qed.

(** A new document that passed validation has a present [name]. *)
Lemma valid_named (w : World) (selected : bool) (u : User) :
  invalidPaths w selected u = [] -> required (name u) = true.
Proof.
  unfold invalidPaths, check. intro H.
  destruct (required (name u)); [reflexivity |].
  simpl in H. discriminate.
Qed.

(** ** Running the handlers *)

(** After verification the mobile handler is the resumption from
    [findOne]'s answer. *)
Lemma oAuthMobile_verified
      (w : World) (now : Z) (tokenId reqProvider : option string)
      (prov : string) (p : Profile) (s : Store) :
  oAuthMobile_verify w tokenId reqProvider s = (Normal (prov, p), s) ->
  oAuthMobile w now tokenId reqProvider s
  = oAuthMobile_resume w now prov p (findOne_googleId (pf_id p) s) s.
Proof.
  intro H. unfold oAuthMobile, oAuthMobile_resume, try_catch, bind.
  rewrite H. unfold reconcileMobile, bind, findOne. reflexivity.
Qed.

Lemma oAuthMobile_resume_Normal
      (w : World) (now : Z) (prov : string) (p : Profile)
      (found : option User) (s s' : Store) (user : User) :
  reconcileMobile_found w now prov p found s = (Normal user, s') ->
  oAuthMobile_resume w now prov p found s
  = (match Token_sign w now (payload_of user) with
     | inr tokens => mkResponse 200 (JsonLogin (mobileSummary user) tokens)
     | inl e => oAuthMobile_catch e
     end, s').
Proof.
  intro H. unfold oAuthMobile_resume, try_catch, bind. rewrite H.
  unfold issue. now destruct (Token_sign w now (payload_of user)).
Qed.

Lemma oAuthMobile_resume_Throw
      (w : World) (now : Z) (prov : string) (p : Profile)
      (found : option User) (s s' : Store) (e : Exn) :
  reconcileMobile_found w now prov p found s = (Throw e, s') ->
  oAuthMobile_resume w now prov p found s = (oAuthMobile_catch e, s).
Proof.
  intro H. unfold oAuthMobile_resume, try_catch, bind. rewrite H.
  f_equal. unfold reconcileMobile_found in H.
  destruct found; [apply User_save_Throw in H | apply User_create_Throw in H];
    assumption.
Qed.

Lemma reconcileMobile_unfold (w : World) (now : Z) (prov : string)
      (p : Profile) (s : Store) :
  reconcileMobile w now prov p s
  = reconcileMobile_found w now prov p (findOne_googleId (pf_id p) s) s.
Proof. reflexivity. Qed.

Lemma reconcileCallback_unfold (w : World) (now : Z) (p : Profile)
      (s : Store) :
  reconcileCallback w now p s
  = reconcileCallback_found w now p (findOne_googleId (pf_id p) s) s.
Proof. reflexivity. Qed.

Lemma oauthCallback_verified
      (w : World) (now : Z) (code : option string) (p : Profile) (s : Store) :
  oauthCallback_verify w code s = (Normal p, s) ->
  oauthCallback w now code s
  = match reconcileCallback w now p s with
    | (Normal user, s') =>
        (match Token_sign w now (payload_of user) with
         | inr tokens =>
             mkResponse 200 (JsonLogin (callbackSummary user) tokens)
         | inl e => oauthCallback_catch e
         end, s')
    | (Return r, s') => (r, s')
    | (Throw e, s') => (oauthCallback_catch e, s')
    end.
Proof.
  intro H. unfold oauthCallback, try_catch, bind. rewrite H.
  destruct (reconcileCallback w now p s) as [[user | r | e] s'];
    try reflexivity.
  unfold issue. now destruct (Token_sign w now (payload_of user)).
Qed.

(** ** Duplicate keys *)

(** The index on [googleId] is not unique: two documents with one
    identifier and different addresses are both stored. *)
Lemma googleId_index_not_unique :
  exists s',
    insertOne (mkUser 2 (Some "Ann") (Some "ann@c.org") None "customer" None
                 None None true (Some "g123") true (Some "google") true None 0)
              [Sample.googleUser 0] = inr s'
    /\ length (filter (hasGoogleId "g123") s') = 2.
Proof. eexists. split; reflexivity. Qed.

(** C4 as stated fails, at two first logins of one Google account that
    both had [findOne] answer "none": the second create is refused with the
    duplicate-key error, and that request ends in an error response. *)
Lemma duplicate_create_not_recovered :
  ~ (forall (w : World) (now : Z) (prov : string) (p : Profile) (s : Store)
            (existing : User),
        findOne_googleId (pf_id p) s = Some existing ->
        fst (User_create w (mobileNewUserData p prov now) s)
        = Throw DuplicateKeyError ->
        ~ isErrorResponse (fst (oAuthMobile_resume w now prov p None s))).
Proof.
  intro H.
  apply (H Sample.world 2000%Z "google" Sample.mobileProfile
           (snd (oAuthMobile Sample.world 1000 (Some "h.c123.ok")
                             (Some "google") []))
           (Sample.googleUser 1000)).
  - reflexivity.
  - reflexivity.
  - match goal with
    | |- isErrorResponse ?r =>
        assert (E : r = InternalError) by (vm_compute; reflexivity);
        rewrite E
    end.
    unfold isErrorResponse, InternalError. simpl. lia.
Qed.

(** C4, amended: when the create of the mobile flow is refused with the
    duplicate-key error, which the index on [email] raises, the handler
    does not read again: it answers 500 "Internal server error" and the
    collection is as before. *)
Theorem duplicate_key_surfaces_as_500
        (w : World) (now : Z) (prov : string) (p : Profile) (s : Store) :
  fst (User_create w (mobileNewUserData p prov now) s)
  = Throw DuplicateKeyError ->
  oAuthMobile_resume w now prov p None s = (InternalError, s)
  /\ existsb (hasEmail (setEmail (pf_email p))) s = true.
Proof.
  intro H.
  destruct (User_create w (mobileNewUserData p prov now) s) as [c s'] eqn:E.
  simpl in H. subst c. split.
  - now rewrite (oAuthMobile_resume_Throw w now prov p None s s' _ E).
  - unfold User_create in E.
    destruct (invalidPaths w true _); [| discriminate E].
    unfold insertOne in E. rewrite preSave_email in E.
    destruct (existsb _ s); [reflexivity | discriminate E].
Qed.

(** The second of two first logins of one Google account. *)
Lemma duplicate_key_surfaces_as_500_witness :
  oAuthMobile_resume Sample.world 2000 "google" Sample.mobileProfile None
                     [Sample.googleUser 1000]
  = (InternalError, [Sample.googleUser 1000])
  /\ existsb (hasEmail (setEmail (pf_email Sample.mobileProfile)))
             [Sample.googleUser 1000] = true.
Proof.
  apply (duplicate_key_surfaces_as_500 Sample.world 2000 "google"
           Sample.mobileProfile [Sample.googleUser 1000]).
  reflexivity.
Defined.

(** ** Provider backfill *)

(** In the mobile flow an account found without provider comes back
    with the lower-cased provider of the request, and the step that does
    it changes no other path. *)
Lemma reconcileMobile_backfills
      (w : World) (now : Z) (prov : string) (p : Profile)
      (u u' : User) (s s' : Store) :
  findOne_googleId (pf_id p) s = Some u ->
  Js.truthy (provider u) = false ->
  reconcileMobile w now prov p s = (Normal u', s') ->
  provider u' = Some (Js.toLowerCase prov) /\ In u' s'.
Proof.
  intros Hfind Hprov Hrun. rewrite reconcileMobile_unfold, Hfind in Hrun.
  apply User_save_Normal in Hrun. destruct Hrun as [_ [-> Hrep]].
  split; [| now apply replaceById_In in Hrep].
  rewrite preSave_provider. unfold mobileUpdate.
  apply backfillProvider_sets. now destruct u.
Qed.

(** The browser flow never assigns [provider]: an account found without
    one is written back without one. *)
Lemma reconcileCallback_keeps_provider
      (w : World) (now : Z) (p : Profile) (u u' : User) (s s' : Store) :
  findOne_googleId (pf_id p) s = Some u ->
  reconcileCallback w now p s = (Normal u', s') ->
  provider u' = provider u.
Proof.
  intros Hfind Hrun. rewrite reconcileCallback_unfold, Hfind in Hrun.
  apply User_save_Normal in Hrun. destruct Hrun as [_ [-> _]].
  now rewrite preSave_provider, callbackUpdate_provider.
Qed.

(** Nor does it pass one to [User.create]: the document is a Google
    user without provider, which the schema refuses. *)
Lemma callback_create_refused
      (w : World) (now : Z) (p : Profile) (s : Store) :
  exists paths,
    User_create w (callbackNewUserData p now) s
    = (Throw (ValidationError paths), s)
    /\ In "provider" paths.
Proof.
  unfold User_create.
  assert (Hin : In "provider"
                   (invalidPaths w true
                      (newDocument (nextId s) (callbackNewUserData p now)))).
  { unfold invalidPaths. repeat (apply in_or_app; right). simpl. now left. }
  destruct (invalidPaths w true _) as [|x l]; [destruct Hin |].
  exists (x :: l). split; [reflexivity | exact Hin].
Qed.

(** C5, evaluated on the browser flow.  A login that finds an account
    without provider succeeds and stores it still without provider; when
    that account is a Google account, the schema refuses the save and the
    login ends in a 500.  The mobile flow, on the same collection, stores
    the provider. *)
Theorem oauthCallback_no_provider_backfill :
  (exists tokens,
      oauthCallback Sample.world 1000 (Some "good") [Sample.linkedUser]
      = (mkResponse 200
           (JsonLogin
              (callbackSummary
                 (callbackUpdate Sample.webProfile 1000 Sample.linkedUser))
              tokens),
         [callbackUpdate Sample.webProfile 1000 Sample.linkedUser])
      /\ provider (callbackUpdate Sample.webProfile 1000 Sample.linkedUser)
         = None)
  /\ oauthCallback Sample.world 1000 (Some "good") [Sample.legacyGoogleUser]
     = (oauthCallback_catch (ValidationError ["provider"]),
        [Sample.legacyGoogleUser])
  /\ map provider
         (snd (oAuthMobile Sample.world 1000 (Some "h.c123.ok")
                           (Some "google") [Sample.legacyGoogleUser]))
     = [Some "google"].
Proof.
  split; [| split].
  - eexists. split; [vm_compute; reflexivity | reflexivity].
  - vm_compute. reflexivity.
  - vm_compute. reflexivity.
Qed.

(** ** Reconciliation *)

Lemma hasGoogleId_iff (g : string) (u : User) :
  hasGoogleId g u = true <-> googleId u = Some g.
Proof. unfold hasGoogleId. apply option_string_eqb_true. Qed.

Lemma newDocument_fields (id : nat) (p : Profile) (prov : string) (now : Z) :
  let u := preSave (newDocument id (mobileNewUserData p prov now)) in
  _id u = id
  /\ googleId u = Some (pf_id p)
  /\ email u = setEmail (pf_email p)
  /\ provider u = Some (Js.toLowerCase prov)
  /\ isEmailVerified u = true
  /\ role u = "customer"
  /\ isGoogleUser u = true.
Proof.
  intro u. subst u.
  rewrite preSave_id, preSave_googleId, preSave_email, preSave_provider,
    preSave_role.
  repeat split.
  - now apply preSave_verified.
  - destruct (preSave_cases (newDocument id (mobileNewUserData p prov now)))
      as [v [[Hv | Hv] [Hp | [n Hp]]]]; rewrite Hp, Hv; reflexivity.
Qed.

(** After a successful reconciliation, [findOne] on the same identifier
    answers with the account just written. *)
Lemma reconcileMobile_found_again
      (w : World) (now : Z) (prov : string) (p : Profile)
      (s s' : Store) (user : User) :
  reconcileMobile w now prov p s = (Normal user, s') ->
  findOne_googleId (pf_id p) s' = Some user.
Proof.
  rewrite reconcileMobile_unfold. unfold reconcileMobile_found.
  destruct (findOne_googleId (pf_id p) s) as [u0|] eqn:Hfind; intro H.
  - apply User_save_Normal in H. destruct H as [_ [-> Hrep]].
    apply find_some in Hfind as Hu0. destruct Hu0 as [_ Hu0].
    apply (find_replaceById _ u0 _ s s' Hfind).
    + now rewrite preSave_id, mobileUpdate_id.
    + apply hasGoogleId_iff in Hu0. apply hasGoogleId_iff.
      now rewrite preSave_googleId, mobileUpdate_googleId.
    + exact Hrep.
  - apply User_create_Normal in H. destruct H as [_ [-> [_ ->]]].
    apply find_app_last; [exact Hfind |].
    apply hasGoogleId_iff.
    apply (newDocument_fields (nextId s) p prov now).
Qed.

Lemma reconcileCallback_found_again
      (w : World) (now : Z) (p : Profile) (s s' : Store) (user : User) :
  reconcileCallback w now p s = (Normal user, s') ->
  findOne_googleId (pf_id p) s' = Some user.
Proof.
  rewrite reconcileCallback_unfold. unfold reconcileCallback_found.
  destruct (findOne_googleId (pf_id p) s) as [u0|] eqn:Hfind; intro H.
  - apply User_save_Normal in H. destruct H as [_ [-> Hrep]].
    apply find_some in Hfind as Hu0. destruct Hu0 as [_ Hu0].
    apply (find_replaceById _ u0 _ s s' Hfind).
    + now rewrite preSave_id, callbackUpdate_id.
    + apply hasGoogleId_iff in Hu0. apply hasGoogleId_iff.
      now rewrite preSave_googleId, callbackUpdate_googleId.
    + exact Hrep.
  - apply User_create_Normal in H. destruct H as [_ [-> [_ ->]]].
    apply find_app_last; [exact Hfind |].
    apply hasGoogleId_iff. now rewrite preSave_googleId.
Qed.

Lemma oAuthMobile_catch_is_error (e : Exn) :
  isErrorResponse (oAuthMobile_catch e).
Proof.
  unfold isErrorResponse, oAuthMobile_catch.
  destruct (exn_name e =? "ValidationError"); simpl; lia.
Qed.

Lemma oauthCallback_catch_is_error (e : Exn) :
  isErrorResponse (oauthCallback_catch e).
Proof. unfold isErrorResponse, oauthCallback_catch. simpl. lia. Qed.

(** C6: when [Token.sign] throws after the account was created or
    updated, the handler answers with an error response, the collection
    keeps the write, and a lookup by the same identifier finds the
    account. *)
Theorem signing_failure_keeps_account
        (w : World) (now : Z) (s s' : Store) (user : User) (e : Exn) :
  Token_sign w now (payload_of user) = inl e ->
  (forall tokenId reqProvider prov p,
      oAuthMobile_verify w tokenId reqProvider s = (Normal (prov, p), s) ->
      reconcileMobile w now prov p s = (Normal user, s') ->
      oAuthMobile w now tokenId reqProvider s = (oAuthMobile_catch e, s')
      /\ isErrorResponse (oAuthMobile_catch e)
      /\ findOne_googleId (pf_id p) s' = Some user)
  /\
  (forall code p,
      oauthCallback_verify w code s = (Normal p, s) ->
      reconcileCallback w now p s = (Normal user, s') ->
      oauthCallback w now code s = (oauthCallback_catch e, s')
      /\ isErrorResponse (oauthCallback_catch e)
      /\ findOne_googleId (pf_id p) s' = Some user).
Proof.
  intro Hsign. split.
  - intros tokenId reqProvider prov p Hver Hrec. split; [| split].
    + rewrite (oAuthMobile_verified w now _ _ prov p s Hver).
      rewrite reconcileMobile_unfold in Hrec.
      rewrite (oAuthMobile_resume_Normal w now prov p _ s s' user Hrec).
      now rewrite Hsign.
    + apply oAuthMobile_catch_is_error.
    + now apply (reconcileMobile_found_again w now prov p s s').
  - intros code p Hver Hrec. split; [| split].
    + rewrite (oauthCallback_verified w now code p s Hver), Hrec.
      now rewrite Hsign.
    + apply oauthCallback_catch_is_error.
    + now apply (reconcileCallback_found_again w now p s s').
Qed.

(** A first mobile login and a browser login of a known account, with a
    token plugin that has no secret to sign with. *)
Lemma signing_failure_keeps_account_witness :
  (oAuthMobile Sample.worldNoSigning 1000 (Some "h.c123.ok") (Some "google") []
   = (InternalError, [Sample.googleUser 1000])
   /\ findOne_googleId "g123" [Sample.googleUser 1000]
      = Some (Sample.googleUser 1000))
  /\
  (oauthCallback Sample.worldNoSigning 1000 (Some "good") [Sample.adminUser]
   = (CallbackInternalError,
      [callbackUpdate Sample.webProfile 1000 Sample.adminUser])
   /\ findOne_googleId "g123"
        [callbackUpdate Sample.webProfile 1000 Sample.adminUser]
      = Some (callbackUpdate Sample.webProfile 1000 Sample.adminUser)).
Proof.
  split.
  - destruct (signing_failure_keeps_account Sample.worldNoSigning 1000
                [] [Sample.googleUser 1000] (Sample.googleUser 1000)
                (Error "secretOrPrivateKey must have a value") eq_refl)
      as [Hmobile _].
    destruct (Hmobile (Some "h.c123.ok") (Some "google") "google"
                Sample.mobileProfile eq_refl eq_refl) as [H1 [_ H3]].
    split; [exact H1 | exact H3].
  - destruct (signing_failure_keeps_account Sample.worldNoSigning 1000
                [Sample.adminUser]
                [callbackUpdate Sample.webProfile 1000 Sample.adminUser]
                (callbackUpdate Sample.webProfile 1000 Sample.adminUser)
                (Error "secretOrPrivateKey must have a value") eq_refl)
      as [_ Hweb].
    destruct (Hweb (Some "good") Sample.webProfile eq_refl eq_refl)
      as [H1 [_ H3]].
    split; [exact H1 | exact H3].
Defined.

(** C9: a successful reconciliation of an account that exists, in
    either flow, stores it with the role it had, and with the email still
    verified if it was. *)
Theorem login_keeps_role_and_verification
        (w : World) (now : Z) (p : Profile) (s s' : Store) (u u' : User) :
  findOne_googleId (pf_id p) s = Some u ->
  (forall prov,
      reconcileMobile w now prov p s = (Normal u', s') ->
      role u' = role u
      /\ (isEmailVerified u = true -> isEmailVerified u' = true)
      /\ findOne_googleId (pf_id p) s' = Some u')
  /\
  (reconcileCallback w now p s = (Normal u', s') ->
   role u' = role u
   /\ (isEmailVerified u = true -> isEmailVerified u' = true)
   /\ findOne_googleId (pf_id p) s' = Some u').
Proof.
  intro Hfind. split.
  - intros prov Hrun.
    pose proof (reconcileMobile_found_again w now prov p s s' u' Hrun) as Hagain.
    rewrite reconcileMobile_unfold, Hfind in Hrun.
    apply User_save_Normal in Hrun. destruct Hrun as [_ [-> _]].
    split; [| split; [| exact Hagain]].
    + now rewrite preSave_role, mobileUpdate_role.
    + intro Hv. apply preSave_verified.
      now rewrite mobileUpdate_verified.
  - intro Hrun.
    pose proof (reconcileCallback_found_again w now p s s' u' Hrun) as Hagain.
    rewrite reconcileCallback_unfold, Hfind in Hrun.
    apply User_save_Normal in Hrun. destruct Hrun as [_ [-> _]].
    split; [| split; [| exact Hagain]].
    + now rewrite preSave_role, callbackUpdate_role.
    + intro Hv. apply preSave_verified.
      now rewrite callbackUpdate_verified.
Qed.

(** An administrator logs in again, through either flow. *)
Lemma login_keeps_role_and_verification_witness :
  (role (mobileUpdate Sample.mobileProfile "google" 2000 Sample.adminUser)
   = "admin"
   /\ isEmailVerified
        (mobileUpdate Sample.mobileProfile "google" 2000 Sample.adminUser)
      = true)
  /\
  (role (callbackUpdate Sample.webProfile 2000 Sample.adminUser) = "admin"
   /\ isEmailVerified (callbackUpdate Sample.webProfile 2000 Sample.adminUser)
      = true).
Proof.
  split.
  - destruct (login_keeps_role_and_verification Sample.world 2000
                Sample.mobileProfile [Sample.adminUser]
                [mobileUpdate Sample.mobileProfile "google" 2000
                              Sample.adminUser]
                Sample.adminUser
                (mobileUpdate Sample.mobileProfile "google" 2000
                              Sample.adminUser)
                eq_refl) as [Hmobile _].
    destruct (Hmobile "google" eq_refl) as [Hrole [Hver _]].
    split; [exact Hrole | exact (Hver eq_refl)].
  - destruct (login_keeps_role_and_verification Sample.world 2000
                Sample.webProfile [Sample.adminUser]
                [callbackUpdate Sample.webProfile 2000 Sample.adminUser]
                Sample.adminUser
                (callbackUpdate Sample.webProfile 2000 Sample.adminUser)
                eq_refl) as [_ Hweb].
    destruct (Hweb eq_refl) as [Hrole [Hver _]].
    split; [exact Hrole | exact (Hver eq_refl)].
Defined.

(** ** Lookup by identifier only *)


Lemma email_taken (s : Store) (existing : User) (e : option string) :
  In existing s -> email existing = e ->
  existsb (hasEmail e) s = true.
Proof.
  intros Hin He. apply existsb_exists. exists existing. split; [exact Hin |].
  unfold hasEmail. now apply option_string_eqb_true.
Qed.








(** ** The verification stage of the mobile flow *)


(** What an accepted token tells about its claims segment. *)
Lemma verifyIdToken_accepts (w : World) (tokenId : string)
      (audience : list string) (claims : IdClaims) :
  verifyIdToken w tokenId audience = inr (mkTicket (Some claims)) ->
  exists seg,
    claimsSegment tokenId = Some seg
    /\ decode_claims w seg = DecodedObject claims.
Proof.
  unfold verifyIdToken.
  destruct (claimsSegment tokenId) as [seg|]; [| discriminate].
  destruct (decode_claims w seg) as [e | | c] eqn:Hdec; try discriminate.
  destruct (check_signature w tokenId); [discriminate |].
  match goal with |- context [if ?c then _ else _] => destruct c end;
    [| discriminate].
  intro H. injection H as <-. exists seg. split; [reflexivity | exact Hdec].
Qed.

Lemma toLowerCase_google_nonempty (prov : string) :
  Js.toLowerCase prov = "google" -> prov <> "".
Proof. intros H ->. discriminate H. Qed.


(** ** First login *)


(** A first login whose document the validators refuse creates nothing
    either: the handler answers 400. *)
Lemma first_login_refused_by_validation :
  reconcileMobile Sample.world 1000 "google" Sample.longProfile []
  = (Throw (ValidationError ["name"]), [])
  /\ status (oAuthMobile_catch (ValidationError ["name"])) = 400.
Proof. split; vm_compute; reflexivity. Qed.




(** ** Reconciling twice *)

Lemma max_id_ge (s : Store) (v : User) :
  In v s -> _id v <= fold_right (fun u m => Nat.max (_id u) m) 0 s.
Proof.
  induction s as [|x r IH]; simpl; [intros [] |].
  intros [-> | Hin]; [lia |]. specialize (IH Hin). lia.
Qed.

Lemma nextId_fresh (s : Store) : ~ In (nextId s) (map _id s).
Proof.
  intro Hin. apply in_map_iff in Hin. destruct Hin as [v [Hid Hv]].
  apply max_id_ge in Hv. unfold nextId in Hid. lia.
Qed.

Lemma NoDup_snoc {A} (l : list A) (x : A) :
  NoDup l -> ~ In x l -> NoDup (l ++ [x]).
Proof.
  induction 1 as [|y l Hy Hl IH]; simpl; intro Hx.
  - constructor; [intros [] | constructor].
  - constructor.
    + rewrite in_app_iff. simpl. intros [H | [H | []]]; [tauto |].
      subst. tauto.
    + apply IH. tauto.
Qed.

(** With distinct identifiers, [replaceById] rewrites exactly the place
    of the document that was loaded. *)
Lemma replaceById_place (u0 u : User) (s s' : Store) :
  NoDup (map _id s) -> In u0 s -> _id u = _id u0 ->
  replaceById u s = Some s' ->
  exists l r, s = (l ++ u0 :: r)%list /\ s' = (l ++ u :: r)%list.
Proof.
  intros Hnd Hin Hid. revert s' Hnd Hin.
  induction s as [|v t IH]; simpl; intros s' Hnd Hin H; [contradiction |].
  inversion Hnd as [|? ? Hv Ht]; subst.
  destruct (_id v =? _id u)%nat eqn:E.
  - injection H as <-. apply Nat.eqb_eq in E.
    destruct Hin as [-> | Hin].
    + now exists [], t.
    + exfalso. apply Hv. rewrite E, Hid. now apply in_map.
  - destruct (replaceById u t) as [t'|] eqn:Ht'; [| discriminate].
    injection H as <-.
    destruct Hin as [-> | Hin].
    + rewrite Hid, Nat.eqb_refl in E. discriminate.
    + destruct (IH t' Ht Hin eq_refl) as [l [r [-> ->]]].
      now exists (v :: l), r.
Qed.





(** A snapshot the schema refuses is not stored: the second call throws
    the validation error and the account keeps the first snapshot. *)
Lemma reconcileMobile_refuses_long_name :
  reconcileMobile Sample.world 2000 "google" Sample.longProfile
                  [Sample.googleUser 1000]
  = (Throw (ValidationError ["name"]), [Sample.googleUser 1000]).
Proof. vm_compute. reflexivity. Qed.




(** * Properties of the rest of the authentication code *)

(** ** Registration and password login *)

Lemma awaited_create (w : World) (d : UserData) (s : Store) :
  (exists u s', User_create w d s = (Normal u, s'))
  \/ (exists e, User_create w d s = (Throw e, s)).
Proof.
  destruct (User_create w d s) as [[u | r | e] s'] eqn:E.
  - left. now exists u, s'.
  - exfalso. exact (User_create_no_Return w d s s' r E).
  - right. exists e. now rewrite (User_create_Throw w d s s' e E).
Qed.

Lemma findOne_email_None (e : string) (s : Store) :
  findOne_email e s = None <->
  existsb (hasEmail (setEmail (Some e))) s = false.
Proof.
  unfold findOne_email. split.
  - intro H. destruct (find (hasEmail (setEmail (Some e))) s) eqn:F;
      [discriminate |].
    destruct (existsb (hasEmail (setEmail (Some e))) s) eqn:X; [| reflexivity].
    apply existsb_exists in X. destruct X as [u [Hin Hu]].
    now rewrite (find_none _ _ F u Hin) in Hu.
  - intro H. destruct (find (hasEmail (setEmail (Some e))) s) as [u|] eqn:F;
      [| reflexivity].
    apply find_some in F. destruct F as [Hin Hu].
    assert (X : existsb (hasEmail (setEmail (Some e))) s = true)
      by (apply existsb_exists; now exists u).
    congruence.
Qed.






(** X3: [login] never issues tokens.  The query leaves [password] out of
    the document ([select: false]), so the comparison with the hash fails
    for every account: the answer is "missing information", or "wrong
    credentials" with 500 for an unknown address and 401 for a known
    one, and [Token.sign] is not reached. *)
Theorem login_never_issues_tokens
        (w : World) (sha256 : string -> string) (now : Z)
        (body_email body_password : option string) (s : Store) :
  login w sha256 now body_email body_password s = AuthSent MissingInformation
  \/ login w sha256 now body_email body_password s
     = AuthSent (WrongCredentials 500)
  \/ login w sha256 now body_email body_password s
     = AuthSent (WrongCredentials 401).
Proof.
  unfold login.
  destruct body_email as [e|]; [| now left].
  destruct body_password as [p|]; [| now left].
  match goal with |- context [if ?c then _ else _] => destruct c end;
    [now left |].
  unfold findOne_email.
  destruct (find (hasEmail (setEmail (Some e))) s) as [u|]; simpl;
    [| right; now left].
  right. now right.
Qed.

(** X4: registration followed by login with the same address and
    password: the account is found and the login is refused with 401. *)
Theorem register_then_login
        (w : World) (sha256 : string -> string) (now : Z)
        (e n p : string) (s s' : Store) :
  register w sha256 (Some e) (Some n) (Some p) s
  = (mkAuth 200 AuthSuccess, s') ->
  login w sha256 now (Some e) (Some p) s' = AuthSent (WrongCredentials 401).
Proof.
  unfold register.
  destruct (negb (Js.truthy (Some e)) || negb (Js.truthy (Some p))
            || negb (Js.truthy (Some n))) eqn:Hmiss; [discriminate |].
  destruct (findOne_email e s) eqn:F; [discriminate |].
  destruct (awaited_create w (registerData (sha256 p) n e) s)
    as [[u [s1 Hc]] | [err Hc]]; rewrite Hc; cbn [fst snd awaited];
    [| discriminate].
  intro H. injection H as <-.
  apply User_create_Normal in Hc. destruct Hc as [_ [Hu [_ ->]]].
  assert (Hmail : email u = setEmail (Some e))
    by (rewrite Hu, preSave_email; reflexivity).
  unfold login.
  apply orb_false_iff in Hmiss. destruct Hmiss as [Hmiss _].
  rewrite Hmiss.
  assert (Hex : existsb (hasEmail (setEmail (Some e))) (s ++ [u])%list
                = true).
  { apply (email_taken _ u); [| exact Hmail].
    apply in_or_app. right. now left. }
  destruct (findOne_email e (s ++ [u])%list) as [user|] eqn:F'.
  - unfold findOne_email in F'.
    destruct (find _ (s ++ [u])%list); [| discriminate].
    injection F' as <-. reflexivity.
  - apply findOne_email_None in F'. congruence.
Qed.

Lemma register_then_login_witness :
  exists s',
    register Sample.world (fun p => "h:" ++ p) (Some "bob@c.org")
             (Some "Bob") (Some "secret") [] = (mkAuth 200 AuthSuccess, s')
    /\ login Sample.world (fun p => "h:" ++ p) 5 (Some "bob@c.org")
             (Some "secret") s' = AuthSent (WrongCredentials 401).
Proof.
  eexists. split; [reflexivity |].
  apply (register_then_login Sample.world (fun p => "h:" ++ p) 5
           "bob@c.org" "Bob" "secret" []).
  reflexivity.
Defined.

(** ** Splitting *)

Lemma append_empty_r (s : string) : s ++ "" = s.
Proof. induction s as [|c r IH]; simpl; [reflexivity | now rewrite IH]. Qed.

Lemma append_snoc (a : string) (c : ascii) (r : string) :
  (a ++ String c "") ++ r = a ++ String c r.
Proof. induction a as [|x a IH]; simpl; [reflexivity | now rewrite IH]. Qed.

Lemma includes_char (c sep : ascii) (r : string) :
  Js.includes (String c r) (String sep "")
  = Ascii.eqb c sep || Js.includes r (String sep "").
Proof.
  cbn [Js.includes String.prefix]. destruct (ascii_dec sep c) as [-> | Hne].
  - rewrite Ascii.eqb_refl. now destruct r.
  - destruct (Ascii.eqb_spec c sep); [congruence | reflexivity].
Qed.

Lemma splitAcc_not_nil (sep : ascii) (acc s : string) :
  Js.splitAcc sep acc s <> [].
Proof.
  revert acc. induction s as [|c r IH]; simpl; intro acc; [discriminate |].
  destruct (Ascii.eqb c sep); [discriminate | apply IH].
Qed.

(** A string without the separator is one segment, and conversely. *)
Lemma splitAcc_one (sep : ascii) (acc s y : string) :
  Js.splitAcc sep acc s = [y] <->
  y = acc ++ s /\ Js.includes s (String sep "") = false.
Proof.
  revert acc. induction s as [|c r IH]; intro acc.
  - simpl. rewrite append_empty_r. split.
    + intro H. injection H as <-. auto.
    + intros [-> _]. reflexivity.
  - rewrite includes_char. cbn [Js.splitAcc].
    destruct (Ascii.eqb c sep); simpl.
    + split.
      * intro H. injection H as _ H. now apply splitAcc_not_nil in H.
      * intros [_ H]. discriminate.
    + rewrite IH, append_snoc. reflexivity.
Qed.

(** Two segments are the two sides of the only separator. *)
Lemma splitAcc_two (sep : ascii) (acc s x y : string) :
  Js.splitAcc sep acc s = [x; y] <->
  exists a,
    s = a ++ String sep y /\ x = acc ++ a
    /\ Js.includes a (String sep "") = false
    /\ Js.includes y (String sep "") = false.
Proof.
  revert acc. induction s as [|c r IH]; intro acc.
  - simpl. split; [discriminate |].
    intros [a [H _]]. destruct a; discriminate.
  - cbn [Js.splitAcc]. destruct (Ascii.eqb_spec c sep) as [-> | Hne].
    + split.
      * intro H. injection H as <- H.
        apply splitAcc_one in H. destruct H as [-> Hy].
        exists "". rewrite append_empty_r. auto.
      * intros [a [Hs [-> [Ha Hy]]]].
        destruct a as [|c a].
        -- simpl in Hs. injection Hs as ->. rewrite append_empty_r.
           f_equal. apply splitAcc_one. auto.
        -- simpl in Hs. injection Hs as <- _.
           rewrite includes_char, Ascii.eqb_refl in Ha. discriminate.
    + rewrite IH. split.
      * intros [a [-> [-> [Ha Hy]]]]. exists (String c a).
        rewrite append_snoc, includes_char.
        apply Ascii.eqb_neq in Hne. rewrite Hne. auto.
      * intros [a [Hs [-> [Ha Hy]]]].
        destruct a as [|c' a]; simpl in Hs; injection Hs as Hc Hr.
        -- congruence.
        -- subst c' r. exists a. rewrite append_snoc.
           rewrite includes_char in Ha. apply orb_false_iff in Ha.
           tauto.
Qed.

(** ** The [auth] middleware *)

(** X5: [auth] lets a request through exactly when the header is
    [Bearer], one blank and a non-empty token without blanks that
    [jwt.verify] accepts under the access secret; the decoded claims are
    what it attaches.  Every other request is answered 401. *)
Theorem auth_next_iff
        {D : Type} (jwt_verify : string -> string -> Exn + D)
        (JWT_ACCESS_SECRET : option string) (authorization : option string) :
  (forall decoded,
      auth jwt_verify JWT_ACCESS_SECRET authorization = Next decoded <->
      exists token,
        authorization = Some ("Bearer " ++ token)
        /\ token <> ""
        /\ Js.includes token " " = false
        /\ jwt_verify token (key_access JWT_ACCESS_SECRET) = inr decoded)
  /\
  ((exists decoded,
       auth jwt_verify JWT_ACCESS_SECRET authorization = Next decoded)
   \/ exists message,
       auth jwt_verify JWT_ACCESS_SECRET authorization
       = Denied (mkAuth 401 (AuthMessage message))).
Proof.
  split.
  - intro decoded. split.
    + unfold auth. destruct authorization as [header|]; [| discriminate].
      destruct (negb (Js.truthy (Some header))); [discriminate |].
      destruct (Js.split header " ") as [|x [|y [|z parts]]] eqn:Hsplit;
        try discriminate.
      simpl length. simpl nth. cbn [Nat.eqb negb orb].
      destruct (String.eqb_spec x "Bearer") as [-> | Hx];
        [| discriminate].
      cbn [negb]. destruct (String.eqb_spec y "") as [-> | Hy];
        [discriminate |].
      destruct (jwt_verify y (key_access JWT_ACCESS_SECRET)) as [err | d]
        eqn:Hjwt.
      * destruct (exn_name err =? "TokenExpiredError");
          [discriminate |].
        destruct (exn_name err =? "JsonWebTokenError"); discriminate.
      * intro H. injection H as ->. exists y.
        apply splitAcc_two in Hsplit.
        destruct Hsplit as [a [Hh [Ha [_ Hy']]]].
        simpl in Ha. subst a. rewrite Hh. simpl. auto.
    + intros [token [-> [Hne [Hblank Hjwt]]]]. unfold auth.
      assert (Hsplit : Js.split ("Bearer " ++ token) " " = ["Bearer"; token]).
      { apply splitAcc_two. exists "Bearer". auto. }
      rewrite Hsplit. simpl.
      apply String.eqb_neq in Hne. rewrite Hne. now rewrite Hjwt.
  - unfold auth, deny. destruct authorization as [header|];
      [| right; eexists; reflexivity].
    destruct (negb (Js.truthy (Some header)));
      [right; eexists; reflexivity |].
    match goal with |- context [if ?c then _ else _] => destruct c end;
      [right; eexists; reflexivity |].
    match goal with |- context [if ?c then _ else _] => destruct c end;
      [right; eexists; reflexivity |].
    destruct (jwt_verify _ _) as [err | d]; [| left; now exists d].
    right.
    destruct (exn_name err =? "TokenExpiredError");
      [eexists; reflexivity |].
    destruct (exn_name err =? "JsonWebTokenError"); eexists; reflexivity.
Qed.

(** A verifier that accepts one token, and headers around it. *)
Lemma auth_next_iff_witness :
  auth (fun token secret =>
          if (token =? "tok") && (secret =? "k2y_acc3ss") then inr 7
          else inl (mkExn "JsonWebTokenError" "invalid signature"))
       None (Some "Bearer tok") = Next 7.
Proof.
  apply (auth_next_iff
           (fun token secret =>
              if (token =? "tok") && (secret =? "k2y_acc3ss") then inr 7
              else inl (mkExn "JsonWebTokenError" "invalid signature"))
           None (Some "Bearer tok")).
  exists "tok". repeat split. discriminate.
Defined.

(** ** The stages never write *)

Lemma oauthCallback_verify_store (w : World) (code : option string)
      (s : Store) :
  snd (oauthCallback_verify w code s) = s.
Proof.
  unfold oauthCallback_verify, bind, return_if.
  destruct code as [c|]; [| reflexivity].
  destruct (negb (Js.truthy (Some c))); [reflexivity |]. simpl.
  destruct (exchangeCodeForToken w c) as [td|]; [| reflexivity].
  destruct (getUserProfile w (access_token td)); reflexivity.
Qed.

Lemma decodeTokenPayload_cases (w : World) (tokenId : string) (s : Store) :
  decodeTokenPayload w tokenId s
  = (Return (mkResponse 401
               (JsonError "Token decode failed" "Invalid token format")), s)
  \/ decodeTokenPayload w tokenId s = (Normal None, s)
  \/ exists claims seg,
       decodeTokenPayload w tokenId s = (Normal (Some claims), s)
       /\ claimsSegment tokenId = Some seg
       /\ decode_claims w seg = DecodedObject claims.
Proof.
  unfold decodeTokenPayload, claimsSegment.
  destruct (Js.split tokenId ".") as [|a [|seg [|b [|c r]]]];
    try (now left).
  simpl. destruct (decode_claims w seg) as [e | | claims] eqn:Hdec.
  - now left.
  - right. now left.
  - right. right. now exists claims, seg.
Qed.

Lemma verifyTicket_cases (w : World) (tokenId : string) (claims : IdClaims)
      (s : Store) :
  (exists ticket,
      verifyTicket w tokenId claims s = (Normal ticket, s)
      /\ verifyIdToken w tokenId (allowedAudiences w claims) = inr ticket)
  \/ exists r,
       verifyTicket w tokenId claims s = (Return r, s) /\ status r = 401
       /\ exists e b, body r = JsonError e b \/
                      exists t x, body r = JsonAudience e b t x.
Proof.
  unfold verifyTicket.
  destruct (verifyIdToken w tokenId (allowedAudiences w claims))
    as [err | ticket].
  - right. destruct (Js.includes (exn_message err) "audience").
    + eexists. split; [reflexivity | split; [reflexivity |]].
      do 2 eexists. right. do 2 eexists. reflexivity.
    + eexists. split; [reflexivity | split; [reflexivity |]].
      do 2 eexists. left. reflexivity.
  - left. now exists ticket.
Qed.

Lemma verifyIdToken_signature (w : World) (tokenId : string)
      (audience : list string) (ticket : LoginTicket) :
  verifyIdToken w tokenId audience = inr ticket ->
  check_signature w tokenId = None
  /\ exists claims a,
       ticket = mkTicket (Some claims) /\ aud claims = Some a
       /\ Js.mem a audience = true.
Proof.
  unfold verifyIdToken.
  destruct (claimsSegment tokenId) as [seg|]; [| discriminate].
  destruct (decode_claims w seg) as [e | | c]; try discriminate.
  destruct (check_signature w tokenId); [discriminate |].
  destruct (aud c) as [a|] eqn:Ha; [| discriminate].
  destruct (Js.mem a audience) eqn:Hm; [| discriminate].
  intro H. injection H as <-. split; [reflexivity |].
  now exists c, a.
Qed.

Lemma bind_run {A B} (m : M A) (k : A -> M B) (s s' : Store)
      (c : Completion A) :
  m s = (c, s') ->
  bind m k s = match c with
               | Normal a => k a s'
               | Return r => (Return r, s')
               | Throw e => (Throw e, s')
               end.
Proof. intro H. unfold bind. now rewrite H. Qed.

Lemma extractProfile_cases (claims : IdClaims) (s : Store) :
  (exists r,
      extractProfile (mkTicket (Some claims)) s = (Return r, s)
      /\ mobileRefusal r)
  \/ exists g e,
       sub claims = Some g /\ g <> "" /\ c_email claims = Some e /\ e <> ""
       /\ extractProfile (mkTicket (Some claims)) s
          = (Normal (userProfileOf g claims), s).
Proof.
  unfold extractProfile, bind, return_if. cbv beta iota delta [getPayload].
  destruct (sub claims) as [g|] eqn:Hsub.
  - destruct (Js.truthy (Some g)) eqn:Hg; simpl.
    + destruct (c_email claims) as [e|] eqn:He.
      * destruct (Js.truthy (Some e)) eqn:He'; simpl.
        -- right. exists g, e. apply truthy_Some in Hg.
           apply truthy_Some in He'. auto 6.
        -- left. eexists. split; [reflexivity |].
           split; [now left | discriminate].
      * simpl. left. eexists. split; [reflexivity |].
        split; [now left | discriminate].
    + left. eexists. split; [reflexivity |].
      split; [now left | discriminate].
  - left. eexists. split; [reflexivity |].
    split; [now left | discriminate].
Qed.

(** How the verification stage of the mobile flow ends: a refusal, a
    [TypeError] on a claims segment that parses to [null], or a provider
    that lower-cases to [google] with a token the verifier accepted whose
    claims carry [sub] and [email].  The collection is never written. *)
Lemma oAuthMobile_verify_cases
      (w : World) (tokenId reqProvider : option string) (s : Store) :
  (exists r,
      oAuthMobile_verify w tokenId reqProvider s = (Return r, s)
      /\ mobileRefusal r)
  \/ (exists e,
         oAuthMobile_verify w tokenId reqProvider s = (Throw e, s)
         /\ exn_name e = "TypeError")
  \/ exists t prov claims g e,
       tokenId = Some t /\ reqProvider = Some prov
       /\ Js.toLowerCase prov = "google"
       /\ verifyIdToken w t (allowedAudiences w claims)
          = inr (mkTicket (Some claims))
       /\ sub claims = Some g /\ g <> ""
       /\ c_email claims = Some e /\ e <> ""
       /\ oAuthMobile_verify w tokenId reqProvider s
          = (Normal (prov, userProfileOf g claims), s).
Proof.
  unfold oAuthMobile_verify.
  destruct tokenId as [t|];
    [| left; eexists; split; [reflexivity | split; [now left | discriminate]]].
  destruct reqProvider as [prov|];
    [| destruct (negb (Js.truthy (Some t)));
       cbn [bind return_if ret respond throw];
       left; eexists;
       (split; [reflexivity | split; [now left | discriminate]])].
  destruct (negb (Js.truthy (Some t)));
    cbn [bind return_if ret respond throw];
    [left; eexists; split; [reflexivity | split; [now left | discriminate]] |].
  destruct (negb (Js.truthy (Some prov)));
    cbn [bind return_if ret respond throw];
    [left; eexists; split; [reflexivity | split; [now left | discriminate]] |].
  destruct (Js.mem (Js.toLowerCase prov) supportedProviders) eqn:Hmem;
    cbn [bind return_if ret respond throw negb];
    [| left; eexists; split; [reflexivity | split; [now left | discriminate]]].
  pose proof (supported_is_google prov Hmem) as Hgoogle.
  rewrite Hgoogle.
  cbn [String.eqb Ascii.eqb Bool.eqb negb bind return_if ret respond throw].
  destruct (decodeTokenPayload_cases w t s)
    as [Hd | [Hd | [claims [seg [Hd [Hseg Hdec]]]]]];
    rewrite (bind_run _ _ _ _ _ Hd).
  - left. eexists. split; [reflexivity | split; [now right | discriminate]].
  - right. left. eexists. split; reflexivity.
  - cbn [bind ret].
    destruct (verifyTicket_cases w t claims s)
      as [[ticket [Hv Hid]] | [r [Hv [Hst [e [b Hb]]]]]];
      rewrite (bind_run _ _ _ _ _ Hv).
    + destruct (verifyIdToken_signature w t _ ticket Hid)
        as [_ [claims' [a [Hticket _]]]].
      assert (claims' = claims).
      { subst ticket.
        destruct (verifyIdToken_accepts w t _ claims' Hid)
          as [seg' [Hseg' Hdec']].
        rewrite Hseg in Hseg'. injection Hseg' as <-.
        rewrite Hdec in Hdec'. now injection Hdec'. }
      subst claims' ticket.
      destruct (extractProfile_cases claims s)
        as [[r [Hx Hr]] | [g [e [Hsub [Hg [Hmail [He Hx]]]]]]];
        rewrite (bind_run _ _ _ _ _ Hx).
      * left. now exists r.
      * right. right. exists t, prov, claims, g, e. auto 10.
    + left. exists r. split; [reflexivity |]. split; [now right |].
      destruct Hb as [Hb | [tk [x Hb]]]; rewrite Hb; [| discriminate].
      intro H. injection H as -> ->.
      unfold verifyTicket in Hv.
      destruct (verifyIdToken w t (allowedAudiences w claims));
        [| discriminate].
      destruct (Js.includes _ "audience"); injection Hv as <-;
        discriminate Hb.
Qed.

(** ** One write per request *)

Lemma preSave_identity (u : User) : identity (preSave u) = identity u.
Proof.
  unfold identity. now rewrite preSave_id, preSave_email, preSave_googleId.
Qed.

Lemma mobileUpdate_email p prov now (u : User) :
  email (mobileUpdate p prov now u) = email u.
Proof. fields u. Qed.

Lemma callbackUpdate_email p now (u : User) :
  email (callbackUpdate p now u) = email u.
Proof. fields u. Qed.

Lemma mobileUpdate_identity p prov now (u : User) :
  identity (mobileUpdate p prov now u) = identity u.
Proof.
  unfold identity.
  now rewrite mobileUpdate_id, mobileUpdate_email, mobileUpdate_googleId.
Qed.

Lemma callbackUpdate_identity p now (u : User) :
  identity (callbackUpdate p now u) = identity u.
Proof.
  unfold identity.
  now rewrite callbackUpdate_id, callbackUpdate_email,
    callbackUpdate_googleId.
Qed.

Lemma reconcileMobile_found_writes
      (w : World) (now : Z) (prov : string) (p : Profile)
      (found : option User) (s : Store) :
  (forall u0, found = Some u0 -> In u0 s) ->
  writesOnce w s (snd (reconcileMobile_found w now prov p found s)).
Proof.
  intro Hin. unfold reconcileMobile_found.
  destruct found as [u0|].
  - destruct (User_save w (mobileUpdate p prov now u0) s) as [[u | r | e] s']
      eqn:E; simpl.
    + right. right. exists u0, (mobileUpdate p prov now u0), u.
      split; [now apply Hin | split; [apply mobileUpdate_identity | exact E]].
    + exfalso. exact (User_save_no_Return w _ s s' r E).
    + left. exact (User_save_Throw w _ s s' e E).
  - destruct (User_create w (mobileNewUserData p prov now) s)
      as [[u | r | e] s'] eqn:E; simpl.
    + right. left. now exists (mobileNewUserData p prov now), u.
    + exfalso. exact (User_create_no_Return w _ s s' r E).
    + left. exact (User_create_Throw w _ s s' e E).
Qed.

Lemma reconcileCallback_found_writes
      (w : World) (now : Z) (p : Profile) (found : option User) (s : Store) :
  (forall u0, found = Some u0 -> In u0 s) ->
  writesOnce w s (snd (reconcileCallback_found w now p found s)).
Proof.
  intro Hin. unfold reconcileCallback_found.
  destruct found as [u0|].
  - destruct (User_save w (callbackUpdate p now u0) s) as [[u | r | e] s']
      eqn:E; simpl.
    + right. right. exists u0, (callbackUpdate p now u0), u.
      split; [now apply Hin | split; [apply callbackUpdate_identity | exact E]].
    + exfalso. exact (User_save_no_Return w _ s s' r E).
    + left. exact (User_save_Throw w _ s s' e E).
  - destruct (User_create w (callbackNewUserData p now) s)
      as [[u | r | e] s'] eqn:E; simpl.
    + right. left. now exists (callbackNewUserData p now), u.
    + exfalso. exact (User_create_no_Return w _ s s' r E).
    + left. exact (User_create_Throw w _ s s' e E).
Qed.

Lemma findOne_googleId_In (g : string) (s : Store) (u0 : User) :
  findOne_googleId g s = Some u0 -> In u0 s.
Proof. intro H. now apply find_some in H. Qed.

(** The collection after a handler is the collection after its
    reconciliation, when there was one. *)
Lemma oAuthMobile_store
      (w : World) (now : Z) (tokenId reqProvider : option string) (s : Store) :
  snd (oAuthMobile w now tokenId reqProvider s) = s
  \/ exists prov p,
       snd (oAuthMobile w now tokenId reqProvider s)
       = snd (reconcileMobile_found w now prov p
                (findOne_googleId (pf_id p) s) s).
Proof.
  destruct (oAuthMobile_verify_cases w tokenId reqProvider s)
    as [[r [Hv _]] | [[e [Hv _]] | [t [prov [claims [g [e H]]]]]]].
  - left. unfold oAuthMobile, try_catch.
    now rewrite (bind_run _ _ _ _ _ Hv).
  - left. unfold oAuthMobile, try_catch.
    now rewrite (bind_run _ _ _ _ _ Hv).
  - right. destruct H as [_ [_ [_ [_ [_ [_ [_ [_ Hv]]]]]]]].
    exists prov, (userProfileOf g claims).
    rewrite (oAuthMobile_verified w now _ _ _ _ s Hv).
    unfold oAuthMobile_resume, try_catch.
    destruct (reconcileMobile_found w now prov (userProfileOf g claims)
                (findOne_googleId (pf_id (userProfileOf g claims)) s) s)
      as [[u | r | err] s'] eqn:E; rewrite (bind_run _ _ _ _ _ E);
      try reflexivity.
    unfold issue. now destruct (Token_sign w now (payload_of u)).
Qed.

Lemma oauthCallback_store
      (w : World) (now : Z) (code : option string) (s : Store) :
  snd (oauthCallback w now code s) = s
  \/ exists p,
       snd (oauthCallback w now code s)
       = snd (reconcileCallback_found w now p
                (findOne_googleId (pf_id p) s) s).
Proof.
  pose proof (oauthCallback_verify_store w code s) as Hs.
  destruct (oauthCallback_verify w code s) as [[p | r | e] s0] eqn:Hv;
    simpl in Hs; subst s0.
  - right. exists p. rewrite (oauthCallback_verified w now code p s Hv).
    rewrite reconcileCallback_unfold.
    destruct (reconcileCallback_found w now p
                (findOne_googleId (pf_id p) s) s) as [[u | r | err] s'];
      reflexivity.
  - left. unfold oauthCallback, try_catch.
    now rewrite (bind_run _ _ _ _ _ Hv).
  - left. unfold oauthCallback, try_catch.
    now rewrite (bind_run _ _ _ _ _ Hv).
Qed.

Lemma oAuthMobile_writes
      (w : World) (now : Z) (tokenId reqProvider : option string) (s : Store) :
  writesOnce w s (snd (oAuthMobile w now tokenId reqProvider s)).
Proof.
  destruct (oAuthMobile_store w now tokenId reqProvider s)
    as [-> | [prov [p ->]]]; [now left |].
  apply reconcileMobile_found_writes. intros u0. apply findOne_googleId_In.
Qed.

Lemma oauthCallback_writes
      (w : World) (now : Z) (code : option string) (s : Store) :
  writesOnce w s (snd (oauthCallback w now code s)).
Proof.
  destruct (oauthCallback_store w now code s) as [-> | [p ->]]; [now left |].
  apply reconcileCallback_found_writes. intros u0. apply findOne_googleId_In.
Qed.

Lemma register_writes
      (w : World) (sha256 : string -> string)
      (body_email body_name body_password : option string) (s : Store) :
  writesOnce w s
    (snd (register w sha256 body_email body_name body_password s)).
Proof.
  unfold register.
  destruct body_email as [e|]; [| now left].
  destruct body_password as [p|]; [| now left].
  destruct body_name as [n|]; [| now left].
  match goal with |- context [if ?c then _ else _] => destruct c end;
    [now left |].
  destruct (findOne_email e s); [now left |].
  destruct (awaited_create w (registerData (sha256 p) n e) s)
    as [[u [s' Hc]] | [err Hc]]; rewrite Hc; simpl.
  - right. left. now exists (registerData (sha256 p) n e), u.
  - now left.
Qed.

Lemma googleVerify_writes
      (w : World) (now : Z) (profile : PassportProfile) (s : Store) :
  writesOnce w s (snd (googleVerify w now profile s)).
Proof.
  unfold googleVerify.
  destruct (photos profile) as [|photo ps]; [now left |].
  destruct (emails profile) as [|mail ms]; [now left |].
  assert (Hsnd : forall r : Completion User * Store, snd (done r) = snd r).
  { intros [c s']. unfold done. simpl. now destruct (awaited c). }
  destruct (findOne_googleId (pp_id profile) s) as [u0|] eqn:Hfind;
    rewrite Hsnd.
  - apply (reconcileCallback_found_writes w now
             (asProfile profile photo mail) (Some u0) s).
    intros v Hv. injection Hv as <-. now apply findOne_googleId_In in Hfind.
  - destruct (User_create w (passportNewUser profile photo mail) s)
      as [[u | r | e] s'] eqn:E; simpl.
    + right. left. now exists (passportNewUser profile photo mail), u.
    + exfalso. exact (User_create_no_Return w _ s s' r E).
    + left. exact (User_create_Throw w _ s s' e E).
Qed.

(** ** Validity of stored documents *)

Lemma check_nil (path : string) (ok : bool) : check path ok = [] -> ok = true.
Proof. destruct ok; [reflexivity | discriminate]. Qed.

Lemma set_isEmailVerified_invalidPaths (w : World) (sel b : bool) (u : User) :
  invalidPaths w sel (set_isEmailVerified b u) = invalidPaths w sel u.
Proof. now destruct u. Qed.

Lemma preSave_valid_cases (u : User) :
  required (name u) = true ->
  preSave u = u \/ preSave u = set_isEmailVerified true u.
Proof.
  unfold required. intro H. unfold preSave.
  destruct (isGoogleUser u && negb (isEmailVerified u)).
  - right.
    destruct (firstName (set_isEmailVerified true u)) as [f|]; [| reflexivity].
    destruct (lastName (set_isEmailVerified true u)) as [l|]; [| reflexivity].
    replace (name (set_isEmailVerified true u)) with (name u)
      by now destruct u.
    now rewrite H, andb_false_r.
  - left.
    destruct (firstName u) as [f|]; [| reflexivity].
    destruct (lastName u) as [l|]; [| reflexivity].
    now rewrite H, andb_false_r.
Qed.

(** The hook keeps a valid document valid. *)
Lemma preSave_valid (w : World) (sel : bool) (u : User) :
  invalidPaths w sel u = [] -> invalidPaths w sel (preSave u) = [].
Proof.
  intro H.
  destruct (preSave_valid_cases u (valid_named w sel u H)) as [-> | ->];
    [exact H | now rewrite set_isEmailVerified_invalidPaths].
Qed.

(** A document valid as a new one is valid as a loaded one. *)
Lemma valid_loaded (w : World) (u : User) :
  invalidPaths w true u = [] -> invalidPaths w false u = [].
Proof.
  unfold invalidPaths. intro H.
  apply app_eq_nil in H. destruct H as [Ha H].
  apply app_eq_nil in H. destruct H as [Hb H].
  apply app_eq_nil in H. destruct H as [_ H].
  rewrite Ha, Hb. cbn [negb orb check app]. exact H.
Qed.

(** A valid Google account has a provider of the enumeration. *)
Lemma valid_provider (w : World) (sel : bool) (u : User) :
  invalidPaths w sel u = [] -> isGoogleUser u = true ->
  exists prov,
    provider u = Some prov /\ In prov ["google"; "facebook"; "apple"].
Proof.
  unfold invalidPaths. intros H Hg.
  do 7 (apply app_eq_nil in H; destruct H as [_ H]).
  apply check_nil in H. rewrite Hg in H. cbn [negb orb] in H.
  apply andb_true_iff in H. destruct H as [Hreq Henum].
  destruct (provider u) as [prov|]; [| discriminate Hreq].
  exists prov. split; [reflexivity | now apply mem_In].
Qed.

Lemma replaceById_elements (u : User) (s s' : Store) :
  replaceById u s = Some s' -> forall v, In v s' -> v = u \/ In v s.
Proof.
  revert s'. induction s as [|x r IH]; simpl; intros s' H v Hv;
    [discriminate |].
  destruct (_id x =? _id u)%nat.
  - injection H as <-. destruct Hv as [<- | Hv]; [now left | right; now right].
  - destruct (replaceById u r) as [r'|]; [| discriminate].
    injection H as <-. destruct Hv as [<- | Hv]; [right; now left |].
    destruct (IH r' eq_refl v Hv) as [-> | Hin]; [now left | right; now right].
Qed.

Lemma writesOnce_allValid (w : World) (s s' : Store) :
  allValid w s -> writesOnce w s s' -> allValid w s'.
Proof.
  intros Hs [-> | [[d [u Hc]] | [u0 [u [u' [_ [_ Hsave]]]]]]]; [exact Hs | |].
  - apply User_create_Normal in Hc. destruct Hc as [Hv [-> [_ ->]]].
    intros v Hin. apply in_app_or in Hin. destruct Hin as [Hin | [<- | []]].
    + now apply Hs.
    + apply preSave_valid. now apply valid_loaded.
  - apply User_save_Normal in Hsave. destruct Hsave as [Hv [-> Hrep]].
    intros v Hin.
    destruct (replaceById_elements _ s s' Hrep v Hin) as [-> | Hold].
    + now apply preSave_valid.
    + now apply Hs.
Qed.

(** X6: the handlers that write the collection store only documents that
    pass the validators of the schema; so a collection of valid documents
    stays one, and each of its Google accounts has a provider among
    [google], [facebook] and [apple]. *)
Theorem handlers_store_valid_documents (w : World) (s : Store) :
  allValid w s ->
  (forall now tokenId reqProvider,
      allValid w (snd (oAuthMobile w now tokenId reqProvider s)))
  /\ (forall now code, allValid w (snd (oauthCallback w now code s)))
  /\ (forall sha256 e n p, allValid w (snd (register w sha256 e n p s)))
  /\ (forall now profile, allValid w (snd (googleVerify w now profile s)))
  /\ (forall now tokenId reqProvider u,
         In u (snd (oAuthMobile w now tokenId reqProvider s)) ->
         isGoogleUser u = true ->
         exists prov,
           provider u = Some prov
           /\ In prov ["google"; "facebook"; "apple"]).
Proof.
  intro Hs.
  pose proof (writesOnce_allValid w s) as K.
  split; [| split; [| split; [| split]]]; intros.
  - apply K; [exact Hs | apply oAuthMobile_writes].
  - apply K; [exact Hs | apply oauthCallback_writes].
  - apply K; [exact Hs | apply register_writes].
  - apply K; [exact Hs | apply googleVerify_writes].
  - apply (valid_provider w false u); [| assumption].
    apply (K _ Hs (oAuthMobile_writes w now tokenId reqProvider s)).
    assumption.
Qed.

(** A collection with the administrator's account, and a mobile login
    into it. *)
Lemma handlers_store_valid_documents_witness :
  allValid Sample.world
    (snd (oAuthMobile Sample.world 1000 (Some "h.c123.ok") (Some "google")
                      [Sample.adminUser])).
Proof.
  apply (handlers_store_valid_documents Sample.world [Sample.adminUser]).
  intros u [<- | []]. reflexivity.
Defined.

(** ** The frame of a request *)

Lemma existsb_hasEmail_false (e : option string) (s : Store) :
  existsb (hasEmail e) s = false -> ~ In e (map email s).
Proof.
  intros H Hin. apply in_map_iff in Hin. destruct Hin as [u [Hu Hin]].
  assert (X : existsb (hasEmail e) s = true)
    by (apply (email_taken s u); assumption).
  congruence.
Qed.

Lemma identity_parts (u v : User) :
  identity u = identity v ->
  _id u = _id v /\ email u = email v /\ googleId u = googleId v.
Proof. unfold identity. intro H. injection H as H1 H2 H3. auto. Qed.

(** With distinct identifiers, a request leaves the collection as it
    was, or appends one account under a fresh identifier and a free
    address, or rewrites one account in place with its identity. *)
Lemma writesOnce_frame (w : World) (s s' : Store) :
  NoDup (map _id s) -> writesOnce w s s' ->
  s' = s
  \/ (exists u,
         s' = (s ++ [u])%list /\ _id u = nextId s
         /\ ~ In (email u) (map email s))
  \/ (exists l u0 u' r,
         s = (l ++ u0 :: r)%list /\ s' = (l ++ u' :: r)%list
         /\ identity u' = identity u0).
Proof.
  intros Hnd [-> | [[d [u Hc]] | [u0 [u [u' [Hin [Hid Hsave]]]]]]].
  - now left.
  - right. left. apply User_create_Normal in Hc.
    destruct Hc as [_ [Hu [Hfree ->]]]. exists u.
    split; [reflexivity | split].
    + now rewrite Hu, preSave_id.
    + now apply existsb_hasEmail_false.
  - right. right. apply User_save_Normal in Hsave.
    destruct Hsave as [_ [-> Hrep]].
    assert (Hid' : identity (preSave u) = identity u0)
      by now rewrite preSave_identity.
    destruct (identity_parts _ _ Hid') as [Hi _].
    destruct (replaceById_place u0 (preSave u) s s' Hnd Hin Hi Hrep)
      as [l [r [-> ->]]].
    now exists l, u0, (preSave u), r.
Qed.

Lemma writesOnce_wellKeyed (w : World) (s s' : Store) :
  wellKeyed s -> writesOnce w s s' -> wellKeyed s'.
Proof.
  intros [Hids Hmails] Hw.
  destruct (writesOnce_frame w s s' Hids Hw)
    as [-> | [[u [-> [Hid Hfree]]] | [l [u0 [u' [r [-> [-> Hident]]]]]]]].
  - now split.
  - split; rewrite map_app; simpl; apply NoDup_snoc; try assumption.
    rewrite Hid. apply nextId_fresh.
  - destruct (identity_parts _ _ Hident) as [Hi [He _]].
    split; rewrite map_app in *; simpl in *; now rewrite ?Hi, ?He.
Qed.

(** X7: no handler that writes the collection ever gives two accounts
    one identifier or one address: distinct [_id]s and distinct [email]s
    are kept by the mobile flow, the browser flow, [register] and the
    passport strategy. *)
Theorem handlers_keep_keys_distinct (w : World) (s : Store) :
  wellKeyed s ->
  (forall now tokenId reqProvider,
      wellKeyed (snd (oAuthMobile w now tokenId reqProvider s)))
  /\ (forall now code, wellKeyed (snd (oauthCallback w now code s)))
  /\ (forall sha256 e n p, wellKeyed (snd (register w sha256 e n p s)))
  /\ (forall now profile, wellKeyed (snd (googleVerify w now profile s))).
Proof.
  intro Hs. pose proof (writesOnce_wellKeyed w s) as K.
  split; [| split; [| split]]; intros; apply K; try exact Hs.
  - apply oAuthMobile_writes.
  - apply oauthCallback_writes.
  - apply register_writes.
  - apply googleVerify_writes.
Qed.

(** A registration next to a password account. *)
Lemma handlers_keep_keys_distinct_witness :
  wellKeyed
    (snd (register Sample.world (fun p => "h:" ++ p) (Some "bob@c.org")
                   (Some "Bob") (Some "secret") [Sample.passwordUser])).
Proof.
  apply (handlers_keep_keys_distinct Sample.world [Sample.passwordUser]).
  split; simpl; (constructor; [intros [] | constructor]).
Defined.

(** X8: with distinct identifiers in the collection, a request through
    any of these handlers deletes nothing and touches at most one
    account: the collection is unchanged, or has one more account at its
    end, or differs in one account, whose [_id], [email] and [googleId]
    are as before. *)
Theorem handlers_frame (w : World) (s : Store) :
  NoDup (map _id s) ->
  (forall now tokenId reqProvider,
      framed s (snd (oAuthMobile w now tokenId reqProvider s)))
  /\ (forall now code, framed s (snd (oauthCallback w now code s)))
  /\ (forall sha256 e n p, framed s (snd (register w sha256 e n p s)))
  /\ (forall now profile, framed s (snd (googleVerify w now profile s))).
Proof.
  intros Hnd.
  assert (K : forall s', writesOnce w s s' -> framed s s').
  { intros s' Hw.
    destruct (writesOnce_frame w s s' Hnd Hw)
      as [-> | [[u [-> _]] | H]].
    - now left.
    - right. left. now exists u.
    - right. now right. }
  split; [| split; [| split]]; intros; apply K.
  - apply oAuthMobile_writes.
  - apply oauthCallback_writes.
  - apply register_writes.
  - apply googleVerify_writes.
Qed.

(** A mobile login of the Google subject next to a password account of
    another address. *)
Lemma handlers_frame_witness :
  framed [Sample.passwordUser; Sample.adminUser]
    (snd (oAuthMobile Sample.world 1000 (Some "h.c123.ok") (Some "google")
            [Sample.passwordUser; Sample.adminUser])).
Proof.
  apply (handlers_frame Sample.world [Sample.passwordUser; Sample.adminUser]).
  simpl. constructor; [intros [H | []]; discriminate H |].
  constructor; [intros [] | constructor].
Defined.

(** ** Flows that cannot create *)

Lemma passport_create_refused
      (w : World) (profile : PassportProfile) (photo mail : string)
      (s : Store) :
  exists paths,
    User_create w (passportNewUser profile photo mail) s
    = (Throw (ValidationError paths), s)
    /\ In "provider" paths.
Proof.
  unfold User_create.
  assert (Hin : In "provider"
                   (invalidPaths w true
                      (newDocument (nextId s)
                         (passportNewUser profile photo mail)))).
  { unfold invalidPaths. repeat (apply in_or_app; right). simpl. now left. }
  destruct (invalidPaths w true _) as [|x l]; [destruct Hin |].
  exists (x :: l). split; [reflexivity | exact Hin].
Qed.

Lemma replaceById_identities (u0 u : User) (s s' : Store) :
  NoDup (map _id s) -> In u0 s -> identity u = identity u0 ->
  replaceById u s = Some s' ->
  map identity s' = map identity s.
Proof.
  intros Hnd Hin Hid Hrep.
  destruct (identity_parts _ _ Hid) as [Hi _].
  destruct (replaceById_place u0 u s s' Hnd Hin Hi Hrep) as [l [r [-> ->]]].
  rewrite !map_app. simpl. now rewrite Hid.
Qed.

Lemma reconcileCallback_found_identities
      (w : World) (now : Z) (p : Profile) (s : Store) :
  NoDup (map _id s) ->
  map identity
      (snd (reconcileCallback_found w now p (findOne_googleId (pf_id p) s) s))
  = map identity s.
Proof.
  intro Hnd. unfold reconcileCallback_found.
  destruct (findOne_googleId (pf_id p) s) as [u0|] eqn:Hfind.
  - destruct (User_save w (callbackUpdate p now u0) s) as [[u | r | e] s']
      eqn:E; simpl.
    + apply User_save_Normal in E. destruct E as [_ [-> Hrep]].
      apply (replaceById_identities u0 (preSave (callbackUpdate p now u0))
               s s' Hnd); try assumption.
      * now apply findOne_googleId_In in Hfind.
      * now rewrite preSave_identity, callbackUpdate_identity.
    + exfalso. exact (User_save_no_Return w _ s s' r E).
    + now rewrite (User_save_Throw w _ s s' e E).
  - destruct (callback_create_refused w now p s) as [paths [-> _]].
    reflexivity.
Qed.

(** X9: neither the browser flow nor the passport strategy ever adds an
    account.  Their [User.create] passes no [provider] for a Google user,
    which the schema refuses, so after either the collection holds the
    same accounts under the same [_id], [email] and [googleId]; a browser
    login of an unknown Google subject is answered 500. *)
Theorem browser_flows_never_create (w : World) (now : Z) (s : Store) :
  NoDup (map _id s) ->
  (forall code,
      map identity (snd (oauthCallback w now code s)) = map identity s)
  /\ (forall profile,
         map identity (snd (googleVerify w now profile s)) = map identity s)
  /\ (forall code p,
         oauthCallback_verify w code s = (Normal p, s) ->
         findOne_googleId (pf_id p) s = None ->
         oauthCallback w now code s = (CallbackInternalError, s)).
Proof.
  intro Hnd. split; [| split].
  - intro code.
    destruct (oauthCallback_store w now code s) as [-> | [p ->]];
      [reflexivity |].
    now apply reconcileCallback_found_identities.
  - intro profile. unfold googleVerify.
    destruct (photos profile) as [|photo ps]; [reflexivity |].
    destruct (emails profile) as [|mail ms]; [reflexivity |].
    assert (Hsnd : forall r : Completion User * Store, snd (done r) = snd r).
    { intros [c s']. unfold done. simpl. now destruct (awaited c). }
    rewrite <- (reconcileCallback_found_identities w now
                  (asProfile profile photo mail) s Hnd).
    change (pf_id (asProfile profile photo mail)) with (pp_id profile).
    destruct (findOne_googleId (pp_id profile) s) as [u0|]; rewrite Hsnd.
    + reflexivity.
    + destruct (passport_create_refused w profile photo mail s)
        as [paths [-> _]].
      unfold reconcileCallback_found.
      destruct (callback_create_refused w now
                  (asProfile profile photo mail) s) as [paths' [-> _]].
      reflexivity.
  - intros code p Hv Hfind.
    rewrite (oauthCallback_verified w now code p s Hv).
    rewrite reconcileCallback_unfold, Hfind. unfold reconcileCallback_found.
    destruct (callback_create_refused w now p s) as [paths [-> _]].
    reflexivity.
Qed.

(** A browser login of a subject the empty collection does not know. *)
Lemma browser_flows_never_create_witness :
  oauthCallback Sample.world 1000 (Some "good") []
  = (CallbackInternalError, []).
Proof.
  destruct (browser_flows_never_create Sample.world 1000 [] (NoDup_nil nat))
    as [_ [_ H]].
  exact (H (Some "good") Sample.webProfile eq_refl eq_refl).
Defined.

(** ** The passport strategy *)

Lemma passport_callback_same_paths
      (w : World) (now : Z) (profile : PassportProfile) (photo mail : string)
      (id : nat) :
  invalidPaths w true (newDocument id (passportNewUser profile photo mail))
  = invalidPaths w true
      (newDocument id (callbackNewUserData (asProfile profile photo mail) now)).
Proof. reflexivity. Qed.

(** X10: the verify callback of the passport strategy and the
    reconciliation of the browser flow are the same operation: on a
    profile with a photo and an address, [done] receives what
    [reconcileCallback] yields for the corresponding profile, and the
    collection is left in the same state. *)
Theorem googleVerify_is_reconcileCallback
        (w : World) (now : Z) (profile : PassportProfile)
        (photo mail : string) (ps ms : list string) (s : Store) :
  photos profile = photo :: ps ->
  emails profile = mail :: ms ->
  googleVerify w now profile s
  = done (reconcileCallback w now (asProfile profile photo mail) s).
Proof.
  intros Hp Hm. unfold googleVerify. rewrite Hp, Hm.
  rewrite reconcileCallback_unfold. unfold reconcileCallback_found.
  change (pf_id (asProfile profile photo mail)) with (pp_id profile).
  destruct (findOne_googleId (pp_id profile) s) as [u0|]; [reflexivity |].
  unfold User_create.
  rewrite (passport_callback_same_paths w now profile photo mail).
  destruct (invalidPaths w true
              (newDocument (nextId s)
                 (callbackNewUserData (asProfile profile photo mail) now)))
    as [|x l] eqn:E; [| reflexivity].
  exfalso.
  assert (Hin : In "provider"
                   (invalidPaths w true
                      (newDocument (nextId s)
                         (callbackNewUserData
                            (asProfile profile photo mail) now)))).
  { unfold invalidPaths. repeat (apply in_or_app; right). simpl. now left. }
  rewrite E in Hin. destruct Hin.
Qed.

(** The administrator signs in through passport. *)
Lemma googleVerify_is_reconcileCallback_witness :
  googleVerify Sample.world 2000
    (mkPassportProfile "g123" (Some "Ann Bee") (Some "Ann") (Some "Bee")
       ["https://img.example/ann.png"] ["a@b.com"])
    [Sample.adminUser]
  = (DoneUser (callbackUpdate Sample.webProfile 2000 Sample.adminUser),
     [callbackUpdate Sample.webProfile 2000 Sample.adminUser]).
Proof.
  rewrite (googleVerify_is_reconcileCallback Sample.world 2000
             (mkPassportProfile "g123" (Some "Ann Bee") (Some "Ann")
                (Some "Bee") ["https://img.example/ann.png"] ["a@b.com"])
             "https://img.example/ann.png" "a@b.com" [] []
             [Sample.adminUser] eq_refl eq_refl).
  reflexivity.
Defined.

Lemma find_by_id_unique (u : User) (s : Store) :
  NoDup (map _id s) -> In u s ->
  find (fun v => (_id v =? _id u)%nat) s = Some u.
Proof.
  induction s as [|x r IH]; simpl; intros Hnd Hin; [contradiction |].
  inversion Hnd as [|? ? Hx Hr]; subst.
  destruct Hin as [-> | Hin].
  - now rewrite Nat.eqb_refl.
  - destruct (_id x =? _id u)%nat eqn:E.
    + apply Nat.eqb_eq in E. exfalso. apply Hx. rewrite E. now apply in_map.
    + now apply IH.
Qed.

(** X11: the session round trip.  With distinct identifiers,
    [deserializeUser] of what [serializeUser] stored for an account of
    the collection yields that account, without its password; an
    identifier no account has yields none. *)
Theorem deserialize_serialize (s : Store) :
  NoDup (map _id s) ->
  (forall u, In u s -> deserializeUser (serializeUser u) s = Some (selected u))
  /\ (forall id, ~ In id (map _id s) -> deserializeUser id s = None).
Proof.
  intro Hnd. split.
  - intros u Hin. unfold deserializeUser, serializeUser, findById.
    now rewrite (find_by_id_unique u s Hnd Hin).
  - intros id Hid. unfold deserializeUser, findById.
    destruct (find (fun u => (_id u =? id)%nat) s) as [u|] eqn:F;
      [| reflexivity].
    apply find_some in F. destruct F as [Hin E].
    apply Nat.eqb_eq in E. exfalso. apply Hid. rewrite <- E.
    now apply in_map.
Qed.

Lemma deserialize_serialize_witness :
  deserializeUser (serializeUser Sample.adminUser)
                  [Sample.passwordUser; Sample.adminUser]
  = Some (selected Sample.adminUser)
  /\ deserializeUser 3 [Sample.passwordUser; Sample.adminUser] = None.
Proof.
  assert (Hnd : NoDup (map _id [Sample.passwordUser; Sample.adminUser])).
  { simpl. constructor; [intros [H | []]; discriminate H |].
    constructor; [intros [] | constructor]. }
  destruct (deserialize_serialize _ Hnd) as [Hsome Hnone].
  split.
  - apply Hsome. right. now left.
  - apply Hnone. simpl. intros [H | [H | []]]; discriminate H.
Defined.

(** ** What a 200 of the mobile flow stands for *)

Lemma mobileRefusal_not_200 (r : Response) : mobileRefusal r -> status r <> 200.
Proof. intros [[H | H] _]; rewrite H; lia. Qed.

Lemma oAuthMobile_catch_not_200 (e : Exn) : status (oAuthMobile_catch e) <> 200.
Proof.
  pose proof (oAuthMobile_catch_is_error e) as H. unfold isErrorResponse in H.
  lia.
Qed.

(** How a request to the mobile flow ends. *)
Lemma oAuthMobile_cases
      (w : World) (now : Z) (tokenId reqProvider : option string) (s : Store) :
  (exists r,
      oAuthMobile w now tokenId reqProvider s = (r, s) /\ mobileRefusal r)
  \/ (exists e,
         oAuthMobile w now tokenId reqProvider s = (oAuthMobile_catch e, s))
  \/ exists t prov claims g e u s',
       tokenId = Some t /\ reqProvider = Some prov
       /\ Js.toLowerCase prov = "google"
       /\ verifyIdToken w t (allowedAudiences w claims)
          = inr (mkTicket (Some claims))
       /\ sub claims = Some g /\ g <> ""
       /\ c_email claims = Some e /\ e <> ""
       /\ reconcileMobile w now prov (userProfileOf g claims) s
          = (Normal u, s')
       /\ oAuthMobile w now tokenId reqProvider s
          = (match Token_sign w now (payload_of u) with
             | inr tokens =>
                 mkResponse 200 (JsonLogin (mobileSummary u) tokens)
             | inl err => oAuthMobile_catch err
             end, s').
Proof.
  destruct (oAuthMobile_verify_cases w tokenId reqProvider s)
    as [[r [Hv Hr]] | [[e [Hv _]] | [t [prov [claims [g [e H]]]]]]].
  - left. exists r. split; [| exact Hr].
    unfold oAuthMobile, try_catch. now rewrite (bind_run _ _ _ _ _ Hv).
  - right. left. exists e.
    unfold oAuthMobile, try_catch. now rewrite (bind_run _ _ _ _ _ Hv).
  - destruct H as [Ht [Hp [Hlow [Hver [Hsub [Hg [Hmail [He Hv]]]]]]]].
    rewrite (oAuthMobile_verified w now _ _ _ _ s Hv).
    destruct (reconcileMobile_found w now prov (userProfileOf g claims)
                (findOne_googleId (pf_id (userProfileOf g claims)) s) s)
      as [[u | r | err] s'] eqn:E.
    + right. right. exists t, prov, claims, g, e, u, s'.
      rewrite (oAuthMobile_resume_Normal w now prov _ _ s s' u E).
      rewrite reconcileMobile_unfold. auto 12.
    + exfalso. unfold reconcileMobile_found in E.
      destruct (findOne_googleId _ s);
        [exact (User_save_no_Return w _ s s' r E)
        | exact (User_create_no_Return w _ s s' r E)].
    + right. left. exists err.
      exact (oAuthMobile_resume_Throw w now prov _ _ s s' err E).
Qed.

Lemma oAuthMobile_200
      (w : World) (now : Z) (tokenId reqProvider : option string) (s : Store) :
  status (fst (oAuthMobile w now tokenId reqProvider s)) = 200 ->
  exists t prov claims g e u tokens,
    tokenId = Some t /\ reqProvider = Some prov
    /\ Js.toLowerCase prov = "google"
    /\ verifyIdToken w t (allowedAudiences w claims)
       = inr (mkTicket (Some claims))
    /\ sub claims = Some g /\ g <> ""
    /\ c_email claims = Some e /\ e <> ""
    /\ reconcileMobile w now prov (userProfileOf g claims) s
       = (Normal u, snd (oAuthMobile w now tokenId reqProvider s))
    /\ Token_sign w now (payload_of u) = inr tokens
    /\ fst (oAuthMobile w now tokenId reqProvider s)
       = mkResponse 200 (JsonLogin (mobileSummary u) tokens).
Proof.
  intro H200.
  destruct (oAuthMobile_cases w now tokenId reqProvider s)
    as [[r [Hrun Hr]] | [[e Hrun] | [t [prov [claims [g [e [u [s' H]]]]]]]]].
  - rewrite Hrun in H200. now apply mobileRefusal_not_200 in Hr.
  - rewrite Hrun in H200. now apply oAuthMobile_catch_not_200 in H200.
  - destruct H as [Ht [Hp [Hlow [Hver [Hsub [Hg [Hmail [He [Hrec Hrun]]]]]]]]].
    rewrite Hrun in *. simpl fst in *. simpl snd.
    destruct (Token_sign w now (payload_of u)) as [err | tokens] eqn:Hsign.
    + now apply oAuthMobile_catch_not_200 in H200.
    + exists t, prov, claims, g, e, u, tokens. auto 14.
Qed.

(** X12: the mobile flow answers 200 only for a provider that
    lower-cases to [google] and a token that passed the signature, issuer
    and time checks of the verifier and whose claims carry a non-empty
    [sub] and [email]. *)
Theorem oAuthMobile_200_only_if_verified
        (w : World) (now : Z) (tokenId reqProvider : option string)
        (s : Store) :
  status (fst (oAuthMobile w now tokenId reqProvider s)) = 200 ->
  exists t prov claims seg g e,
    tokenId = Some t /\ reqProvider = Some prov
    /\ Js.toLowerCase prov = "google"
    /\ check_signature w t = None
    /\ claimsSegment t = Some seg
    /\ decode_claims w seg = DecodedObject claims
    /\ sub claims = Some g /\ g <> ""
    /\ c_email claims = Some e /\ e <> "".
Proof.
  intro H200.
  destruct (oAuthMobile_200 w now tokenId reqProvider s H200)
    as [t [prov [claims [g [e [u [tokens H]]]]]]].
  destruct H as [Ht [Hp [Hlow [Hver [Hsub [Hg [Hmail [He _]]]]]]]].
  destruct (verifyIdToken_signature w t _ _ Hver) as [Hsig _].
  destruct (verifyIdToken_accepts w t _ claims Hver) as [seg [Hseg Hdec]].
  exists t, prov, claims, seg, g, e. auto 12.
Qed.

Lemma oAuthMobile_200_only_if_verified_witness :
  exists t seg,
    Some "h.c123.ok" = Some t
    /\ check_signature Sample.world t = None
    /\ claimsSegment t = Some seg
    /\ decode_claims Sample.world seg
       = DecodedObject (Sample.claims "client-123").
Proof.
  destruct (oAuthMobile_200_only_if_verified Sample.world 1000
              (Some "h.c123.ok") (Some "google") [] eq_refl)
    as [t [prov [claims [seg [g [e H]]]]]].
  destruct H as [Ht [_ [_ [Hsig [Hseg [Hdec _]]]]]].
  exists t, seg. injection Ht as <-.
  repeat split; try assumption.
  vm_compute in Hseg. injection Hseg as <-. reflexivity.
Defined.

(** X13: a 200 of the mobile flow describes an account of the
    collection.  The summary in the body is that of the account [findOne]
    now returns for the token's [sub], and the token pair is what
    [Token.sign] returned for that account's [name], [_id] and [role]. *)
Theorem oAuthMobile_200_describes_stored_account
        (w : World) (now : Z) (tokenId reqProvider : option string)
        (s : Store) :
  status (fst (oAuthMobile w now tokenId reqProvider s)) = 200 ->
  exists t claims seg g u tokens,
    tokenId = Some t
    /\ claimsSegment t = Some seg
    /\ decode_claims w seg = DecodedObject claims
    /\ sub claims = Some g
    /\ findOne_googleId g (snd (oAuthMobile w now tokenId reqProvider s))
       = Some u
    /\ googleId u = Some g
    /\ Token_sign w now (payload_of u) = inr tokens
    /\ fst (oAuthMobile w now tokenId reqProvider s)
       = mkResponse 200 (JsonLogin (mobileSummary u) tokens).
Proof.
  intro H200.
  destruct (oAuthMobile_200 w now tokenId reqProvider s H200)
    as [t [prov [claims [g [e [u [tokens H]]]]]]].
  destruct H as [Ht [_ [_ [Hver [Hsub [_ [_ [_ [Hrec [Hsign Hbody]]]]]]]]]].
  destruct (verifyIdToken_accepts w t _ claims Hver) as [seg [Hseg Hdec]].
  pose proof (reconcileMobile_found_again w now prov _ s _ u Hrec) as Hfound.
  simpl pf_id in Hfound.
  exists t, claims, seg, g, u, tokens.
  repeat split; try assumption.
  apply find_some in Hfound. destruct Hfound as [_ Hg].
  now apply hasGoogleId_iff.
Qed.

Lemma oAuthMobile_200_describes_stored_account_witness :
  exists u tokens,
    findOne_googleId "g123"
      (snd (oAuthMobile Sample.world 1000 (Some "h.c123.ok") (Some "google")
                        [Sample.passwordUser; Sample.adminUser])) = Some u
    /\ fst (oAuthMobile Sample.world 1000 (Some "h.c123.ok") (Some "google")
                        [Sample.passwordUser; Sample.adminUser])
       = mkResponse 200 (JsonLogin (mobileSummary u) tokens).
Proof.
  destruct (oAuthMobile_200_describes_stored_account Sample.world 1000
              (Some "h.c123.ok") (Some "google")
              [Sample.passwordUser; Sample.adminUser] eq_refl)
    as [t [claims [seg [g [u [tokens H]]]]]].
  destruct H as [Ht [Hseg [Hdec [Hsub [Hfind [_ [_ Hbody]]]]]]].
  exists u, tokens. split; [| exact Hbody].
  injection Ht as <-. vm_compute in Hseg. injection Hseg as <-.
  vm_compute in Hdec. injection Hdec as <-.
  vm_compute in Hsub. injection Hsub as <-. exact Hfind.
Defined.

(** X14: the second provider check of the mobile flow never fires: no
    request is answered "Provider not implemented", because a provider
    that passes the supported-provider check lower-cases to [google]. *)
Theorem provider_not_implemented_is_dead
        (w : World) (now : Z) (tokenId reqProvider : option string)
        (s : Store) :
  body (fst (oAuthMobile w now tokenId reqProvider s))
  <> JsonError "Provider not implemented"
               "Only Google OAuth is currently implemented".
Proof.
  destruct (oAuthMobile_cases w now tokenId reqProvider s)
    as [[r [Hrun [_ Hr]]] | [[e Hrun] | [t [prov [claims [g [e [u [s' H]]]]]]]]].
  - now rewrite Hrun.
  - rewrite Hrun. unfold oAuthMobile_catch.
    destruct (exn_name e =? "ValidationError"); discriminate.
  - destruct H as [_ [_ [_ [_ [_ [_ [_ [_ [_ Hrun]]]]]]]]]. rewrite Hrun.
    destruct (Token_sign w now (payload_of u)) as [err | tokens];
      [| discriminate].
    simpl. unfold oAuthMobile_catch.
    destruct (exn_name err =? "ValidationError"); discriminate.
Qed.

(** X15: a token that does not consist of three dot-separated segments
    is answered 401 "Token decode failed" in every world: neither the
    decoder nor the verifier is consulted, and the collection is not
    read. *)
Theorem malformed_token_refused
        (w : World) (now : Z) (t prov : string) (s : Store) :
  t <> "" ->
  Js.toLowerCase prov = "google" ->
  length (Js.split t ".") <> 3 ->
  oAuthMobile w now (Some t) (Some prov) s
  = (mkResponse 401 (JsonError "Token decode failed" "Invalid token format"),
     s).
Proof.
  intros Ht Hprov Hlen.
  assert (Hd : decodeTokenPayload w t s
               = (Return (mkResponse 401
                    (JsonError "Token decode failed" "Invalid token format")),
                  s)).
  { unfold decodeTokenPayload.
    destruct (Nat.eqb_spec (length (Js.split t ".")) 3) as [E | E];
      [contradiction | reflexivity]. }
  assert (Hv : oAuthMobile_verify w (Some t) (Some prov) s
               = (Return (mkResponse 401
                    (JsonError "Token decode failed" "Invalid token format")),
                  s)).
  { unfold oAuthMobile_verify.
    apply truthy_Some in Ht. rewrite Ht.
    pose proof (toLowerCase_google_nonempty prov Hprov) as Hp.
    apply truthy_Some in Hp. rewrite Hp, Hprov.
    cbn [Js.mem existsb supportedProviders String.eqb Ascii.eqb Bool.eqb
         orb negb bind return_if ret respond throw].
    now rewrite (bind_run _ _ _ _ _ Hd). }
  unfold oAuthMobile, try_catch. now rewrite (bind_run _ _ _ _ _ Hv).
Qed.

Lemma malformed_token_refused_witness :
  oAuthMobile Sample.world 1000 (Some "abc") (Some "Google")
              [Sample.adminUser]
  = (mkResponse 401 (JsonError "Token decode failed" "Invalid token format"),
     [Sample.adminUser]).
Proof.
  apply (malformed_token_refused Sample.world 1000 "abc" "Google"
           [Sample.adminUser]); try discriminate. reflexivity.
Defined.

(** ** model/user.ts: [fullName] and the login lock *)

Lemma truthy_append (f r : string) :
  Js.truthy (Some f) = true -> Js.truthy (Some (f ++ r)) = true.
Proof. destruct f; [discriminate | reflexivity]. Qed.

(** X16: the virtual [fullName] of a document that passes validation is
    never missing or empty: it is the first and last name joined by a
    blank when both are present, and the required [name] otherwise. *)
Theorem fullName_of_valid_document (w : World) (sel : bool) (u : User) :
  invalidPaths w sel u = [] ->
  Js.truthy (fullName u) = true
  /\ (fullName u = name u
      \/ exists f l,
           firstName u = Some f /\ lastName u = Some l
           /\ fullName u = Some (f ++ " " ++ l)).
Proof.
  intro Hv. pose proof (valid_named w sel u Hv) as Hname.
  unfold required in Hname. unfold fullName.
  destruct (firstName u) as [f|]; [| auto].
  destruct (lastName u) as [l|]; [| auto].
  destruct (Js.truthy (Some f)) eqn:Hf; [| auto].
  destruct (Js.truthy (Some l)); [| auto].
  cbn [andb]. split.
  - now apply truthy_append.
  - right. now exists f, l.
Qed.

Lemma fullName_of_valid_document_witness :
  Js.truthy (fullName (callbackUpdate Sample.webProfile 1000 Sample.adminUser))
  = true.
Proof.
  apply (fullName_of_valid_document Sample.world false
           (callbackUpdate Sample.webProfile 1000 Sample.adminUser)).
  reflexivity.
Defined.

(** One failed attempt on an account without a lock. *)
Lemma failedAttempt_unlocked (now : Z) (l : Lock) :
  lockUntil l = None ->
  failedAttempt now l
  = mkLock (Some (attempts l + 1))
           (if (5 <=? attempts l + 1)%nat then Some (now + two_hours)%Z
            else None).
Proof.
  intro H. unfold failedAttempt, incrementLoginAttempts, isLocked, updateOne.
  rewrite H. cbn [negb andb]. rewrite andb_true_r.
  destruct (5 <=? attempts l + 1)%nat; reflexivity.
Qed.

Lemma failedAttempts_below_five (times : list Z) (l : Lock) :
  lockUntil l = None ->
  attempts l + length times <= 4 ->
  lockUntil (failedAttempts times l) = None
  /\ attempts (failedAttempts times l) = attempts l + length times.
Proof.
  revert l. induction times as [|t ts IH]; intros l Hl Hle.
  - simpl. split; [exact Hl | lia].
  - simpl in Hle. unfold failedAttempts. simpl fold_left.
    fold (failedAttempts ts (failedAttempt t l)).
    rewrite (failedAttempt_unlocked t l Hl).
    destruct (Nat.leb_spec 5 (attempts l + 1)) as [H5 | H5]; [lia |].
    destruct (IH (mkLock (Some (attempts l + 1)) None) eq_refl)
      as [Hlock Hatt].
    + unfold attempts at 1. simpl. lia.
    + split; [exact Hlock |]. rewrite Hatt. unfold attempts at 1. simpl.
      simpl length. lia.
Qed.

Lemma failedAttempts_app (a b : list Z) (l : Lock) :
  failedAttempts (a ++ b) l = failedAttempts b (failedAttempts a l).
Proof. unfold failedAttempts. apply fold_left_app. Qed.

(** X17: after [resetLoginAttempts], up to four failed attempts leave
    the account unlocked with the attempts counted, and the fifth locks
    it until two hours after that attempt. *)
Theorem fifth_failure_locks (l : Lock) (times : list Z) :
  length times <= 4 ->
  lockUntil (failedAttempts times (updateOne (resetLoginAttempts l) l)) = None
  /\ attempts (failedAttempts times (updateOne (resetLoginAttempts l) l))
     = length times
  /\ (length times = 4 ->
      forall t,
        failedAttempts (times ++ [t]) (updateOne (resetLoginAttempts l) l)
        = mkLock (Some 5) (Some (t + two_hours)%Z)).
Proof.
  intros Hle.
  change (updateOne (resetLoginAttempts l) l) with (mkLock None None).
  destruct (failedAttempts_below_five times (mkLock None None) eq_refl)
    as [Hlock Hatt]; [simpl; lia |].
  split; [exact Hlock | split; [exact Hatt |]].
  intros H4 t. rewrite failedAttempts_app.
  unfold failedAttempts at 1. simpl fold_left.
  rewrite (failedAttempt_unlocked t _ Hlock).
  change (attempts (mkLock None None)) with 0 in Hatt.
  rewrite Hatt, H4. reflexivity.
Qed.

(** Five failures one second apart on an account that was locked. *)
Lemma fifth_failure_locks_witness :
  failedAttempts [1000; 2000; 3000; 4000; 5000]%Z
    (updateOne (resetLoginAttempts (mkLock (Some 9) (Some 77%Z)))
               (mkLock (Some 9) (Some 77%Z)))
  = mkLock (Some 5) (Some 7205000%Z).
Proof.
  destruct (fifth_failure_locks (mkLock (Some 9) (Some 77%Z))
              [1000; 2000; 3000; 4000]%Z
              (le_n 4)) as [_ [_ H]].
  exact (H eq_refl 5000%Z).
Defined.

(** X18: a failed attempt while the lock is in force counts but does not
    move the lock; one after the lock has run out clears the lock and
    restarts the count at one; one at the very instant the lock ends
    keeps counting, and with five or more attempts locks for two hours
    from that instant. *)
Theorem failedAttempt_with_lock (now t : Z) (l : Lock) :
  lockUntil l = Some t ->
  ((now < t)%Z ->
   failedAttempt now l = mkLock (Some (attempts l + 1)) (Some t))
  /\ ((t < now)%Z -> failedAttempt now l = mkLock (Some 1) None)
  /\ (t = now -> 4 <= attempts l ->
      failedAttempt now l
      = mkLock (Some (attempts l + 1)) (Some (now + two_hours)%Z)).
Proof.
  intro Hl. unfold failedAttempt, incrementLoginAttempts, isLocked, updateOne.
  rewrite Hl. split; [| split].
  - intro H. assert (E : (t <? now)%Z = false) by (apply Z.ltb_ge; lia).
    rewrite E. apply Z.ltb_lt in H. rewrite H.
    cbn [negb]. rewrite andb_false_r. reflexivity.
  - intro H. apply Z.ltb_lt in H. rewrite H. reflexivity.
  - intros -> H4. rewrite Z.ltb_irrefl. cbn [negb]. rewrite andb_true_r.
    destruct (Nat.leb_spec 5 (attempts l + 1)) as [H5 | H5]; [| lia].
    reflexivity.
Qed.

Lemma failedAttempt_with_lock_witness :
  failedAttempt 50 (mkLock (Some 5) (Some 100%Z))
  = mkLock (Some 6) (Some 100%Z)
  /\ failedAttempt 150 (mkLock (Some 5) (Some 100%Z)) = mkLock (Some 1) None
  /\ failedAttempt 100 (mkLock (Some 5) (Some 100%Z))
     = mkLock (Some 6) (Some 7200100%Z).
Proof.
  destruct (failedAttempt_with_lock 50 100 (mkLock (Some 5) (Some 100%Z))
              eq_refl) as [H1 _].
  destruct (failedAttempt_with_lock 150 100 (mkLock (Some 5) (Some 100%Z))
              eq_refl) as [_ [H2 _]].
  destruct (failedAttempt_with_lock 100 100 (mkLock (Some 5) (Some 100%Z))
              eq_refl) as [_ [_ H3]].
  split; [exact (H1 eq_refl) | split; [exact (H2 eq_refl) |]].
  exact (H3 eq_refl (le_S 4 4 (le_n 4))).
Defined.

(** ** The setters of the schema *)





















(** ** What a 200 of the browser flow stands for *)

Lemma oauthCallback_verify_cases
      (w : World) (code : option string) (s : Store) :
  (exists r, oauthCallback_verify w code s = (Return r, s) /\ status r = 400)
  \/ exists c tokenData p,
       code = Some c /\ c <> ""
       /\ post_token w (tokenParams w c) = HttpData (Some tokenData)
       /\ get_userinfo w (access_token tokenData) = HttpData (Some p)
       /\ oauthCallback_verify w code s = (Normal p, s).
Proof.
  unfold oauthCallback_verify.
  destruct code as [c|]; [| left; eexists; split; reflexivity].
  destruct (Js.truthy (Some c)) eqn:Hc;
    cbn [negb bind return_if ret respond];
    [| left; eexists; split; reflexivity].
  unfold exchangeCodeForToken, getUserProfile.
  destruct (post_token w (tokenParams w c)) as [e | [td|]] eqn:Hpost;
    try (left; eexists; split; reflexivity).
  destruct (get_userinfo w (access_token td)) as [e | [p|]] eqn:Hinfo;
    try (left; eexists; split; reflexivity).
  right. exists c, td, p. apply truthy_Some in Hc. auto 6.
Qed.

(** X20: the browser flow answers 200 only when the provider accepted
    the code, returned a profile, and the profile's [id] is the
    [googleId] of an account that already exists; the body then
    describes that account, with the [_id] and [role] it had, and the
    tokens are those [Token.sign] returned for it. *)
Theorem oauthCallback_200_only_for_known_account
        (w : World) (now : Z) (code : option string) (s : Store) :
  status (fst (oauthCallback w now code s)) = 200 ->
  exists c tokenData p u0 u tokens,
    code = Some c
    /\ post_token w (tokenParams w c) = HttpData (Some tokenData)
    /\ get_userinfo w (access_token tokenData) = HttpData (Some p)
    /\ findOne_googleId (pf_id p) s = Some u0
    /\ _id u = _id u0 /\ role u = role u0
    /\ Token_sign w now (payload_of u) = inr tokens
    /\ fst (oauthCallback w now code s)
       = mkResponse 200 (JsonLogin (callbackSummary u) tokens).
Proof.
  intro H200.
  destruct (oauthCallback_verify_cases w code s)
    as [[r [Hv Hr]] | [c [td [p [Hcode [_ [Hpost [Hinfo Hv]]]]]]]].
  - exfalso. unfold oauthCallback, try_catch in H200.
    rewrite (bind_run _ _ _ _ _ Hv) in H200. simpl in H200. lia.
  - rewrite (oauthCallback_verified w now code p s Hv) in *.
    rewrite reconcileCallback_unfold in *.
    unfold reconcileCallback_found in *.
    destruct (findOne_googleId (pf_id p) s) as [u0|] eqn:Hfind.
    + destruct (User_save w (callbackUpdate p now u0) s)
        as [[u | r | e] s'] eqn:E.
      * destruct (Token_sign w now (payload_of u)) as [err | tokens] eqn:Hs;
          [simpl in H200; discriminate H200 |].
        apply User_save_Normal in E. destruct E as [_ [Hu _]].
        exists c, td, p, u0, u, tokens.
        repeat split; try assumption; try reflexivity.
        -- now rewrite Hu, preSave_id, callbackUpdate_id.
        -- now rewrite Hu, preSave_role, callbackUpdate_role.
      * exfalso. exact (User_save_no_Return w _ s s' r E).
      * simpl in H200. discriminate H200.
    + destruct (callback_create_refused w now p s) as [paths [Hc _]].
      rewrite Hc in H200. simpl in H200. discriminate H200.
Qed.

Lemma oauthCallback_200_only_for_known_account_witness :
  exists u0 u,
    findOne_googleId "g123" [Sample.adminUser] = Some u0
    /\ _id u = _id u0 /\ role u = role u0
    /\ us_role (callbackSummary u) = "admin".
Proof.
  destruct (oauthCallback_200_only_for_known_account Sample.world 1000
              (Some "good") [Sample.adminUser] eq_refl)
    as [c [td [p [u0 [u [tokens H]]]]]].
  destruct H as [Hc [Hpost [Hinfo [Hfind [Hid [Hrole _]]]]]].
  injection Hc as <-. vm_compute in Hpost. injection Hpost as <-.
  vm_compute in Hinfo. injection Hinfo as <-.
  exists u0, u. repeat split; try assumption.
  simpl. rewrite Hrole. vm_compute in Hfind. now injection Hfind as <-.
Defined.
